(** * ChronoFlow-AI mobile client: task list screen and application shell

    A shallow embedding of [screens/TasksScreen] (the task list view-model:
    [loadTasks], [filterTasks], [toggleTaskCompletion], [deleteTask],
    [formatDate], the state setters with the effects that hang on them,
    [getPriorityStyle], [getFilterLabel], the filter bar and the row keys)
    and of [App.js] (the first render, the auth bootstrap, the choice of
    the navigation root and the tab icons), with the properties of the
    view-model contract proved over it.

    Conventions of the embedding
    - a JavaScript string is a [string]: the bytes of the text in UTF-8.
      For well-formed text one string occurs in another as UTF-16 code
      units exactly when it does as UTF-8 bytes;
    - [String.prototype.toLowerCase] belongs to the host and is a
      parameter ([JS.Host]): what is proved of the search holds for every
      case conversion.  [Unicode.toLowerCase] is the conversion of the
      Unicode standard on the Latin, Greek and Cyrillic letters, used
      where a property is evaluated on given strings;
    - an optional property is an [option], [None] for [null] or
      [undefined]; [due_date] keeps the two apart, as [new Date] does;
    - an [async] function is a computation in the monad [M]: it reads and
      writes the component state, talks to the remote services, may throw,
      and records what it did to the outside in a trace.  An [await] is
      sequential composition: no other handler runs in between.  The
      properties of whole sessions are properties of that schedule. *)

From stdpp Require Import base list strings.
From Stdlib Require Import ZArith NArith Ascii String Lia DecimalString DecimalZ.

Local Open Scope string_scope.
Local Open Scope list_scope.

(** ** JavaScript strings *)

Module JS.

(** What the screen takes from the host: [String.prototype.toLowerCase]. *)
Class Host := {
  toLowerCase : string -> string
}.

(** [String.prototype.startsWith]: [q] is a prefix of [s]. *)
Fixpoint startsWith (s q : string) {struct q} : bool :=
  match q, s with
  | EmptyString, _ => true
  | String _ _, EmptyString => false
  | String d q', String c s' => if decide (c = d) then startsWith s' q' else false
  end.

(** [String.prototype.includes]: [q] occurs in [s] at some position. *)
Fixpoint includes (s q : string) : bool :=
  startsWith s q ||
  match s with
  | EmptyString => false
  | String _ s' => includes s' q
  end.

(** Truthiness of a string: only the empty string is falsy. *)
Definition truthy (s : string) : bool :=
  match s with EmptyString => false | String _ _ => true end.

End JS.

(** ** The case conversion of the Unicode standard *)

(** The default lower-casing of the standard, as [toLowerCase] applies it,
    for the letters of Basic Latin, Latin-1, Greek and Cyrillic
    (U+0400 to U+045F), with the final-sigma rule: a capital sigma after a
    cased letter and not before one becomes the final form.  Every other
    code point is left as it is.  The case-ignorable code points known
    here are those of Basic Latin and Latin-1, the combining diacritics
    and the right single quotation mark. *)
Module Unicode.
Local Open Scope N_scope.

Definition unit (c : ascii) : N := N_of_ascii c.

(** The code points of a string held as UTF-8. *)
Fixpoint decode (s : string) : list N :=
  match s with
  | EmptyString => []
  | String b0 s1 =>
      let n0 := unit b0 in
      if n0 <? 0xC0 then n0 :: decode s1
      else if n0 <? 0xE0 then
        match s1 with
        | String b1 s2 => ((n0 - 0xC0) * 64 + (unit b1 - 0x80)) :: decode s2
        | EmptyString => [n0]
        end
      else if n0 <? 0xF0 then
        match s1 with
        | String b1 (String b2 s3) =>
            ((n0 - 0xE0) * 4096 + (unit b1 - 0x80) * 64 + (unit b2 - 0x80))
              :: decode s3
        | _ => n0 :: decode s1
        end
      else
        match s1 with
        | String b1 (String b2 (String b3 s4)) =>
            ((n0 - 0xF0) * 262144 + (unit b1 - 0x80) * 4096
             + (unit b2 - 0x80) * 64 + (unit b3 - 0x80)) :: decode s4
        | _ => n0 :: decode s1
        end
  end.

Definition encodePoint (c : N) : list N :=
  if c <? 0x80 then [c]
  else if c <? 0x800 then [0xC0 + c / 64; 0x80 + c mod 64]
  else if c <? 0x10000 then
    [0xE0 + c / 4096; 0x80 + (c / 64) mod 64; 0x80 + c mod 64]
  else
    [0xF0 + c / 262144; 0x80 + (c / 4096) mod 64; 0x80 + (c / 64) mod 64;
     0x80 + c mod 64].

Definition encode (l : list N) : string :=
  string_of_list_ascii (map ascii_of_N (List.concat (map encodePoint l))).

Definition within (lo hi c : N) : bool := (lo <=? c) && (c <=? hi).

(** The lower-case partner of a code point, the capital sigma apart. *)
Definition lowerPoint (c : N) : N :=
  if within 0x41 0x5A c then c + 32
  else if within 0xC0 0xDE c && negb (c =? 0xD7) then c + 32
  else if c =? 0x386 then 0x3AC
  else if within 0x388 0x38A c then c + 37
  else if c =? 0x38C then 0x3CC
  else if within 0x38E 0x38F c then c + 63
  else if within 0x391 0x3AB c && negb (c =? 0x3A2) then c + 32
  else if within 0x400 0x40F c then c + 80
  else if within 0x410 0x42F c then c + 32
  else c.

Definition cased (c : N) : bool :=
  within 0x41 0x5A c || within 0x61 0x7A c
  || (c =? 0xAA) || (c =? 0xB5) || (c =? 0xBA)
  || within 0xC0 0xD6 c || within 0xD8 0xF6 c || within 0xF8 0xFF c
  || (c =? 0x386) || within 0x388 0x38A c || (c =? 0x38C)
  || within 0x38E 0x3A1 c || within 0x3A3 0x3CE c
  || within 0x400 0x45F c.

Definition caseIgnorable (c : N) : bool :=
  (c =? 0x27) || (c =? 0x2E) || (c =? 0x3A) || (c =? 0x5E) || (c =? 0x60)
  || (c =? 0xA8) || (c =? 0xAD) || (c =? 0xAF) || (c =? 0xB4) || (c =? 0xB7)
  || (c =? 0xB8) || within 0x300 0x36F c || (c =? 0x2019).

(** A cased letter follows, case-ignorable code points skipped. *)
Fixpoint beforeCased (rest : list N) : bool :=
  match rest with
  | [] => false
  | d :: rest' => if caseIgnorable d then beforeCased rest' else cased d
  end.

(** Lower-casing from left to right; [afterCased] tells whether a cased
    letter precedes, case-ignorable code points skipped. *)
Fixpoint lowerPoints (afterCased : bool) (l : list N) : list N :=
  match l with
  | [] => []
  | c :: rest =>
      (if c =? 0x3A3
       then if afterCased && negb (beforeCased rest) then 0x3C2 else 0x3C3
       else lowerPoint c)
      :: lowerPoints (if caseIgnorable c then afterCased else cased c) rest
  end.

Definition toLowerCase (s : string) : string :=
  encode (lowerPoints false (decode s)).

End Unicode.

#[global] Instance unicodeHost : JS.Host :=
  {| JS.toLowerCase := Unicode.toLowerCase |}.

(** ** The data model *)

Inductive Filter := all | today | upcoming | completed.

(** The value of a task's [due_date] property as the screen receives it:
    the property is missing, it is [null], or it is a date string. *)
Inductive DueDate :=
| DueUndefined
| DueNull
| DueString (s : string).

Record Task := mkTask {
  id : Z;
  title : string;
  description : option string;
  due_date : DueDate;
  priority : option Z;
  category : option string;
  is_completed : bool
}.

(** ** The search derivation *)

(** The predicate of the arrow function given to [filter] in [filterTasks]:
    [task.title.toLowerCase().includes(q.toLowerCase()) ||
     task.description?.toLowerCase().includes(q.toLowerCase())].
    An absent description short-circuits the optional chain to [undefined],
    which is falsy. *)
Definition matchesQuery `{!JS.Host} (searchQuery : string) (task : Task) : bool :=
  JS.includes (JS.toLowerCase (title task)) (JS.toLowerCase searchQuery) ||
  match description task with
  | Some d => JS.includes (JS.toLowerCase d) (JS.toLowerCase searchQuery)
  | None => false
  end.

(** The list that [filterTasks] hands to [setFilteredTasks], as a function
    of the [tasks] and [searchQuery] of the render it closes over. *)
Definition filterTasks `{!JS.Host} (tasks : list Task) (searchQuery : string)
    : list Task :=
  let filtered := tasks in
  let filtered :=
    if JS.truthy searchQuery
    then List.filter (matchesQuery searchQuery) filtered
    else filtered in
  filtered.

(** ** What the search selects *)

(** [q] occurs in [s]: some stretch of [s] is [q]. *)
Definition occursIn (q s : string) : Prop :=
  exists pre post, s = pre +:+ q +:+ post.

(** The tasks a search for [q] selects: the lower-cased query occurs in the
    lower-cased title, or in the lower-cased description when the task has
    one. *)
Definition selectedBy `{!JS.Host} (q : string) (task : Task) : Prop :=
  occursIn (JS.toLowerCase q) (JS.toLowerCase (title task)) \/
  exists d, description task = Some d /\
            occursIn (JS.toLowerCase q) (JS.toLowerCase d).

(** ** Handlers as computations

    An event handler or an [async] function runs against a world [W] (the
    component state, the remote services, the trace of what was shown and
    requested) and either returns or throws. *)

Definition Error := string.

Inductive Outcome (A : Type) :=
| Returned (a : A)
| Thrown (e : Error).
Arguments Returned {A} a.
Arguments Thrown {A} e.

Definition M (W A : Type) : Type := W -> Outcome A * W.

Module Eff.
Section Combinators.
Context {W : Type}.

Definition ret {A} (a : A) : M W A := fun w => (Returned a, w).

Definition throw {A} (e : Error) : M W A := fun w => (Thrown e, w).

Definition bind {A B} (m : M W A) (k : A -> M W B) : M W B :=
  fun w =>
    match m w with
    | (Returned a, w') => k a w'
    | (Thrown e, w') => (Thrown e, w')
    end.

Definition gets {A} (f : W -> A) : M W A := fun w => (Returned (f w), w).

Definition modify (f : W -> W) : M W unit := fun w => (Returned tt, f w).

(** [try { body } catch (error) { handler } finally { finalizer }]: the
    handler runs when the body throws, the finalizer runs on every way
    out, and an exception of the finalizer replaces the outcome. *)
Definition tryCatchFinally {A} (body : M W A) (handler : Error -> M W A)
    (finalizer : M W unit) : M W A :=
  fun w =>
    let '(o, w1) :=
      match body w with
      | (Returned a, w') => (Returned a, w')
      | (Thrown e, w') => handler e w'
      end in
    match finalizer w1 with
    | (Returned _, w2) => (o, w2)
    | (Thrown e, w2) => (Thrown e, w2)
    end.

(** [try { body } catch (error) { handler }]. *)
Definition tryCatch {A} (body : M W A) (handler : Error -> M W A) : M W A :=
  tryCatchFinally body handler (ret tt).

(** A call of an [async] function whose promise is dropped: the callee
    runs, and whatever it returns or throws is not seen by the caller. *)
Definition detached {A} (m : M W A) : M W unit :=
  fun w => (Returned tt, snd (m w)).

End Combinators.
End Eff.

Declare Scope eff_scope.
Delimit Scope eff_scope with eff.
Notation "'let*' x := m 'in' k" := (Eff.bind m (fun x => k))
  (at level 10, x name, m at level 100, k at level 200) : eff_scope.
Notation "m >> k" := (Eff.bind m (fun _ => k))
  (at level 90, right associativity) : eff_scope.

(** ** The remote task service *)

(** The fields of an update request; the screen only ever sends
    [{ is_completed }]. *)
Record TaskPatch := mkPatch { patch_is_completed : bool }.

(** The interface of [services/TaskService], over the state [R] of whatever
    stands behind it.  Every call returns its result or fails. *)
Module TaskService.
Class Impl (R : Type) := {
  getTasks : Filter -> R -> Outcome (list Task) * R;
  updateTask : Z -> TaskPatch -> R -> Outcome Task * R;
  deleteTask : Z -> R -> Outcome unit * R
}.
End TaskService.

(** ** The task list screen *)

(** What the screen does to the outside, in the order it does it. *)
Inductive Event :=
| ReqGetTasks (f : Filter)
| ReqUpdateTask (taskId : Z) (fields : TaskPatch)
| ReqDeleteTask (taskId : Z)
| AlertShown (heading message : string) (buttons : list string).

(** The [useState] cells of [TasksScreen]. *)
Record Screen := mkScreen {
  tasks : list Task;
  filteredTasks : list Task;
  refreshing : bool;
  searchQuery : string;
  filter : Filter;
  showDatePicker : bool
}.

(** The state of a freshly mounted screen. *)
Definition Screen_initial : Screen :=
  {| tasks := []; filteredTasks := []; refreshing := false;
     searchQuery := ""; filter := all; showDatePicker := false |}.

Record World (R : Type) := mkWorld {
  ui : Screen;
  remote : R;
  trace : list Event
}.
Arguments mkWorld {R}.
Arguments ui {R}.
Arguments remote {R}.
Arguments trace {R}.

(** A button of an alert dialog: its label, its style and what pressing it
    runs. *)
Record Button (W : Type) := mkButton {
  text : string;
  style : string;
  onPress : option (M W unit)
}.
Arguments mkButton {W}.
Arguments text {W}.
Arguments style {W}.
Arguments onPress {W}.

Module TasksScreen.
Section Screen.
Context `{!JS.Host} {R : Type} `{!TaskService.Impl R}.
Local Open Scope eff_scope.

Abbreviation W := (World R).

Definition log (ev : Event) : M W unit :=
  Eff.modify (fun w => mkWorld (ui w) (remote w) (trace w ++ [ev])).

Definition setUi (f : Screen -> Screen) : M W unit :=
  Eff.modify (fun w => mkWorld (f (ui w)) (remote w) (trace w)).

(** A request to the service: it is recorded, then answered. *)
Definition request {A} (ev : Event) (call : R -> Outcome A * R) : M W A :=
  log ev >>
  fun w => let '(o, r) := call (remote w) in (o, mkWorld (ui w) r (trace w)).

Definition setRefreshing (b : bool) : M W unit :=
  setUi (fun s => mkScreen (tasks s) (filteredTasks s) b
                           (searchQuery s) (filter s) (showDatePicker s)).

Definition setFilteredTasks (l : list Task) : M W unit :=
  setUi (fun s => mkScreen (tasks s) l (refreshing s)
                           (searchQuery s) (filter s) (showDatePicker s)).

(** The effect [useEffect(() => { filterTasks(); }, [searchQuery, tasks])]:
    [filterTasks] over the current [tasks] and [searchQuery]. *)
Definition filterTasksEffect : M W unit :=
  let* s := Eff.gets ui in
  setFilteredTasks (filterTasks (tasks s) (searchQuery s)).

(** [setTasks]: the fetched array is a new value, so the effect that
    depends on [tasks] runs after the update. *)
Definition setTasks (l : list Task) : M W unit :=
  setUi (fun s => mkScreen l (filteredTasks s) (refreshing s)
                           (searchQuery s) (filter s) (showDatePicker s)) >>
  filterTasksEffect.

(** [Alert.alert(title, message, buttons)] and the user's answer to it:
    the index of the button pressed, or [None] when the dialog goes
    away without one.  The handler of the pressed button runs. *)
Definition Alert_alert (heading message : string) (buttons : list (Button W))
    (answer : option nat) : M W unit :=
  log (AlertShown heading message (map text buttons)) >>
  match answer with
  | None => Eff.ret tt
  | Some i =>
      match buttons !! i with
      | Some {| onPress := Some handler |} => handler
      | _ => Eff.ret tt
      end
  end.

(** A notification: [Alert.alert(title, message)], nothing to answer. *)
Definition notify (heading message : string) : M W unit :=
  Alert_alert heading message [] None.

Definition loadTasks : M W unit :=
  Eff.tryCatchFinally
    (setRefreshing true >>
     let* f := Eff.gets (fun w => filter (ui w)) in
     let* fetchedTasks := request (ReqGetTasks f) (TaskService.getTasks f) in
     setTasks fetchedTasks)
    (fun error => notify "Ошибка" "Не удалось загрузить задачи")
    (setRefreshing false).

Definition toggleTaskCompletion (taskId : Z) (isCompleted : bool) : M W unit :=
  Eff.tryCatch
    (let fields := {| patch_is_completed := negb isCompleted |} in
     request (ReqUpdateTask taskId fields)
             (TaskService.updateTask taskId fields) >>
     Eff.detached loadTasks)
    (fun error => notify "Ошибка" "Не удалось обновить задачу").

Definition deleteTask (taskId : Z) (answer : option nat) : M W unit :=
  Alert_alert "Удаление задачи" "Вы уверены, что хотите удалить эту задачу?"
    [ {| text := "Отмена"; style := "cancel"; onPress := None |};
      {| text := "Удалить"; style := "destructive";
         onPress := Some (
           Eff.tryCatch
             (request (ReqDeleteTask taskId) (TaskService.deleteTask taskId) >>
              Eff.detached loadTasks)
             (fun error => notify "Ошибка" "Не удалось удалить задачу")) |} ]
    answer.

(** The [onPress] of the completion icon of a rendered item. *)
Definition pressToggle (item : Task) : M W unit :=
  toggleTaskCompletion (id item) (is_completed item).

(** The [onPress] of the delete button of a rendered item. *)
Definition pressDelete (item : Task) (answer : option nat) : M W unit :=
  deleteTask (id item) answer.

End Screen.
End TasksScreen.

(** ** Rendering a task *)

Module Render.
Section Dates.
(** The host's date library: [Date.parse] of a date string (its time
    value, or [None] for [NaN]) and the formatting of a time value by
    [Intl.DateTimeFormat] for a locale and a set of options. *)
Variable Date_parse : string -> option Z.

Record DateTimeFormatOptions := mkOptions {
  day : option string;
  month : option string;
  hour : option string;
  minute : option string
}.

Variable Intl_format : string -> DateTimeFormatOptions -> Z -> string.

(** [new Date(value)]: the time value of the date, [None] for an
    invalid date.  [undefined] converts to [NaN], [null] to [0]. *)
Definition Date_new (value : DueDate) : option Z :=
  match value with
  | DueUndefined => None
  | DueNull => Some 0%Z
  | DueString s => Date_parse s
  end.

(** [Date.prototype.toLocaleDateString]. *)
Definition toLocaleDateString (date : option Z) (locales : string)
    (options : DateTimeFormatOptions) : string :=
  match date with
  | None => "Invalid Date"
  | Some tv => Intl_format locales options tv
  end.

Definition formatDate (dateString : DueDate) : string :=
  let date := Date_new dateString in
  toLocaleDateString date "ru-RU"
    {| day := Some "numeric"; month := Some "short";
       hour := Some "2-digit"; minute := Some "2-digit" |}.

(** The texts of a card of the list, as [renderTaskItem] lays them
    out: the description and the category are there only when the
    property is truthy, the date line is always there. *)
Record Card := mkCard {
  card_title : string;
  card_description : option string;
  card_date : string;
  card_category : option string
}.

Definition whenTruthy (o : option string) : option string :=
  match o with
  | Some s => if JS.truthy s then Some s else None
  | None => None
  end.

Definition renderTaskItem (item : Task) : Card :=
  {| card_title := title item;
     card_description := whenTruthy (description item);
     card_date := formatDate (due_date item);
     card_category := whenTruthy (category item) |}.

End Dates.
End Render.

(** ** The application shell *)

(** What [AuthService.getToken] resolves to. *)
Inductive Token :=
| TokenNull
| TokenUndefined
| TokenString (s : string).

(** [value == null]. *)
Definition looseNull (t : Token) : bool :=
  match t with
  | TokenNull | TokenUndefined => true
  | TokenString _ => false
  end.

(** The interface of [services/AuthService], over the state [A] of
    whatever stands behind it. *)
Module AuthService.
Class Impl (A : Type) := {
  getToken : A -> Outcome Token * A
}.
End AuthService.

Inductive AppEvent :=
| ReqGetToken
| ConsoleError (message : string) (e : Error).

Record AppState := mkApp {
  isLoading : bool;
  userToken : Token
}.

Record AppWorld (A : Type) := mkAppWorld {
  app : AppState;
  auth : A;
  appTrace : list AppEvent
}.
Arguments mkAppWorld {A}.
Arguments app {A}.
Arguments auth {A}.
Arguments appTrace {A}.

(** What [App] returns: the splash screen, or the navigator with its one
    screen. *)
Inductive Root := SplashScreen | Login | Main.

(** The names [App.js] binds: what it imports and what it declares.  No
    global of the host is called [SplashScreen]. *)
Definition moduleScope : list string :=
  ["React"; "useState"; "useEffect";
   "NavigationContainer"; "createStackNavigator"; "createBottomTabNavigator";
   "PaperProvider"; "Icon";
   "LoginScreen"; "TasksScreen"; "CalendarScreen"; "AnalyticsScreen";
   "TeamScreen"; "ProfileScreen";
   "AuthService"; "TaskService"; "CalendarService";
   "Stack"; "Tab"; "MainTabNavigator"; "App"].

Module App.
Section Shell.
Context {A : Type} `{!AuthService.Impl A}.
Local Open Scope eff_scope.

Abbreviation W := (AppWorld A).

(** [useState(true)] and [useState(null)]. *)
Definition initial : AppState := {| isLoading := true; userToken := TokenNull |}.

Definition setIsLoading (b : bool) : M W unit :=
  Eff.modify (fun w => mkAppWorld (mkApp b (userToken (app w))) (auth w) (appTrace w)).

Definition setUserToken (t : Token) : M W unit :=
  Eff.modify (fun w => mkAppWorld (mkApp (isLoading (app w)) t) (auth w) (appTrace w)).

Definition logApp (ev : AppEvent) : M W unit :=
  Eff.modify (fun w => mkAppWorld (app w) (auth w) (appTrace w ++ [ev])).

Definition AuthService_getToken : M W Token :=
  logApp ReqGetToken >>
  fun w => let '(o, a) := AuthService.getToken (auth w) in
           (o, mkAppWorld (app w) a (appTrace w)).

Definition bootstrapAsync : M W unit :=
  Eff.tryCatchFinally
    (let* token := AuthService_getToken in
     setUserToken token)
    (fun e => logApp (ConsoleError "Failed to load token:" e))
    (setIsLoading false).

(** The effect [useEffect(() => { ...; bootstrapAsync(); }, [])]: with
    an empty dependency list it runs after the first render only.
    The promise of [bootstrapAsync] is dropped. *)
Definition effects (firstRender : bool) : M W unit :=
  if firstRender then Eff.detached bootstrapAsync else Eff.ret tt.

(** Evaluating an identifier in a scope: a name the scope does not bind
    throws a [ReferenceError] (the wording of its message is the
    engine's; here it is the kind of error and the name). *)
Definition identifier (scope : list string) (name : string) : M W unit :=
  if bool_decide (name ∈ scope) then Eff.ret tt
  else Eff.throw ("ReferenceError: " +:+ name).

(** The body of [App] after its hooks, for the state of a render: the
    JSX it returns, every component name in it evaluated in order. *)
Definition renderIn (scope : list string) : M W Root :=
  let* s := Eff.gets app in
  if isLoading s then
    identifier scope "SplashScreen" >> Eff.ret SplashScreen
  else
    identifier scope "PaperProvider" >>
    identifier scope "NavigationContainer" >>
    identifier scope "Stack" >>
    if looseNull (userToken s)
    then identifier scope "Stack" >> identifier scope "LoginScreen" >> Eff.ret Login
    else identifier scope "Stack" >> identifier scope "MainTabNavigator" >> Eff.ret Main.

Fixpoint rerenderIn (scope : list string) (n : nat) (shown : Root) : M W Root :=
  match n with
  | O => Eff.ret shown
  | S n' =>
      let* shown' := renderIn scope in
      effects false >> rerenderIn scope n' shown'
  end.

(** The life of the process: the first render, then its effects, then any
    number of further renders; the result is what the last render
    returned.  A render that throws ends it: there is no error boundary,
    nothing of that render is committed and its effects do not run. *)
Definition runIn (scope : list string) (rerenders : nat) : M W Root :=
  let* shown := renderIn scope in
  effects true >> rerenderIn scope rerenders shown.

Definition render : M W Root := renderIn moduleScope.

Definition run (rerenders : nat) : M W Root := runIn moduleScope rerenders.

(** The world at process start, around an auth service in state [a]. *)
Definition start (a : A) : W := mkAppWorld initial a [].

End Shell.
End App.

(** ** A task service to run the screen against *)

(** Modelled from the spec: the remote task service behind
    [services/TaskService], whose code is not part of this repository's
    sources.  The specification gives its interface ([getTasks(filter)]
    answers with the task set matching the filter, [updateTask(id, fields)]
    with the updated task, [deleteTask(id)] with nothing) and says that a
    transport or server error surfaces as a failure of the call.  The
    server owns the tasks; nothing but the requests below changes them
    (no concurrent external mutation).  Which tasks a filter selects is
    the server's business ([selects]); [faults] scripts the transport: one
    flag per request, [true] for a request that fails. *)
Module Server.

Record t := mk {
  store : list Task;
  selects : Filter -> Task -> bool;
  faults : list bool
}.

Definition nextFault (sv : t) : bool * t :=
  match faults sv with
  | [] => (false, sv)
  | b :: rest => (b, mk (store sv) (selects sv) rest)
  end.

Definition hasId (taskId : Z) (task : Task) : bool := (id task =? taskId)%Z.

Definition applyPatch (fields : TaskPatch) (task : Task) : Task :=
  mkTask (id task) (title task) (description task) (due_date task)
         (priority task) (category task) (patch_is_completed fields).

Definition getTasks (f : Filter) (sv : t) : Outcome (list Task) * t :=
  let '(fault, sv1) := nextFault sv in
  if fault then (Thrown "Network Error", sv1)
  else (Returned (List.filter (selects sv1 f) (store sv1)), sv1).

Definition updateTask (taskId : Z) (fields : TaskPatch) (sv : t)
    : Outcome Task * t :=
  let '(fault, sv1) := nextFault sv in
  if fault then (Thrown "Network Error", sv1)
  else
    match List.find (hasId taskId) (store sv1) with
    | None => (Thrown "Not Found", sv1)
    | Some task =>
        (Returned (applyPatch fields task),
         mk (map (fun x => if hasId taskId x then applyPatch fields x else x)
                 (store sv1))
            (selects sv1) (faults sv1))
    end.

Definition deleteTask (taskId : Z) (sv : t) : Outcome unit * t :=
  let '(fault, sv1) := nextFault sv in
  if fault then (Thrown "Network Error", sv1)
  else
    match List.find (hasId taskId) (store sv1) with
    | None => (Thrown "Not Found", sv1)
    | Some _ =>
        (Returned tt,
         mk (List.filter (fun x => negb (hasId taskId x)) (store sv1))
            (selects sv1) (faults sv1))
    end.

#[global] Instance impl : TaskService.Impl t :=
  {| TaskService.getTasks := getTasks;
     TaskService.updateTask := updateTask;
     TaskService.deleteTask := deleteTask |}.

End Server.

(** The task the local set holds under an id. *)
Definition currentTask (taskId : Z) (l : list Task) : option Task :=
  List.find (Server.hasId taskId) l.

(** ** Sample data *)

Definition plainTask (i : Z) (name : string) (done : bool) : Task :=
  mkTask i name None DueUndefined None None done.

Definition buyMilk : Task := plainTask 1 "Buy milk" false.
Definition callBob : Task := plainTask 1 "Call Bob" false.
Definition emailBob : Task := plainTask 2 "Email Bob" false.

(** A server that selects by the name of the filter as far as the task
    record allows: everything, or the completed tasks; for the two
    date filters, the tasks that carry a date. *)
Definition bySelector (f : Filter) (task : Task) : bool :=
  match f with
  | all => true
  | completed => is_completed task
  | today | upcoming =>
      match due_date task with DueString _ => true | _ => false end
  end.

Definition serverWith (l : list Task) (script : list bool) : Server.t :=
  Server.mk l bySelector script.

Definition screenWith (l : list Task) (f : Filter) : Screen :=
  {| tasks := l; filteredTasks := l; refreshing := false;
     searchQuery := ""; filter := f; showDatePicker := false |}.

(** An auth service that answers from a script. *)
#[global] Instance scriptedAuth : AuthService.Impl (list (Outcome Token)) :=
  {| AuthService.getToken := fun script =>
       match script with
       | [] => (Returned TokenNull, [])
       | o :: rest => (o, rest)
       end |}.

(** ** What the properties speak of *)

(** The screen state with the refresh indicator put to [b]. *)
Definition withRefreshing (b : bool) (s : Screen) : Screen :=
  mkScreen (tasks s) (filteredTasks s) b (searchQuery s) (filter s)
           (showDatePicker s).

(** The screen state after a load that fetched [fetched]. *)
Definition loaded `{!JS.Host} (fetched : list Task) (s : Screen) : Screen :=
  mkScreen fetched (filterTasks fetched (searchQuery s)) false
           (searchQuery s) (filter s) (showDatePicker s).

(** The dialogs the screen shows. *)
Definition loadFailedAlert : Event :=
  AlertShown "Ошибка" "Не удалось загрузить задачи" [].

Definition updateFailedAlert : Event :=
  AlertShown "Ошибка" "Не удалось обновить задачу" [].

Definition deleteFailedAlert : Event :=
  AlertShown "Ошибка" "Не удалось удалить задачу" [].

Definition confirmDeleteAlert : Event :=
  AlertShown "Удаление задачи" "Вы уверены, что хотите удалить эту задачу?"
             ["Отмена"; "Удалить"].

Definition isGetToken (ev : AppEvent) : bool :=
  match ev with ReqGetToken => true | ConsoleError _ _ => false end.

(** How many times the auth service was asked for the token. *)
Definition tokenRequests (l : list AppEvent) : nat :=
  List.length (List.filter isGetToken l).

(** ** The rest of the screen: handlers, effects and what is drawn *)

#[global] Instance Filter_eq_dec : EqDecision Filter.
Proof. solve_decision. Defined.

#[global] Instance TaskPatch_eq_dec : EqDecision TaskPatch.
Proof. solve_decision. Defined.

#[global] Instance Event_eq_dec : EqDecision Event.
Proof. solve_decision. Defined.

Module Interaction.
Section Handlers.
Context `{!JS.Host} {R : Type} `{!TaskService.Impl R}.
Import TasksScreen.
Local Open Scope eff_scope.

(** [setSearchQuery], the [onChangeText] of the search bar.  Setting the
    query it already has is no state change; otherwise the effect that
    depends on [searchQuery] runs [filterTasks] after the update. *)
Definition setSearchQuery (q : string) : M (World R) unit :=
  let* s := Eff.gets ui in
  if decide (searchQuery s = q) then Eff.ret tt
  else
    setUi (fun s => mkScreen (tasks s) (filteredTasks s) (refreshing s)
                             q (filter s) (showDatePicker s)) >>
    filterTasksEffect.

(** [setFilter], the [onPress] of a filter button.  Setting the filter it
    already has is no state change; otherwise the effect
    [useEffect(() => { loadTasks(); }, [filter])] runs after the update,
    and drops the promise of [loadTasks]. *)
Definition setFilter (f : Filter) : M (World R) unit :=
  let* s := Eff.gets ui in
  if decide (filter s = f) then Eff.ret tt
  else
    setUi (fun s => mkScreen (tasks s) (filteredTasks s) (refreshing s)
                             (searchQuery s) f (showDatePicker s)) >>
    Eff.detached loadTasks.

Definition setShowDatePicker (b : bool) : M (World R) unit :=
  setUi (fun s => mkScreen (tasks s) (filteredTasks s) (refreshing s)
                           (searchQuery s) (filter s) b).

(** The [onChange] of the date picker: it closes the picker; the branch
    for a chosen date is empty. *)
Definition onPickerChange (date : option Z) : M (World R) unit :=
  setShowDatePicker false >>
  match date with
  | Some _ => Eff.ret tt
  | None => Eff.ret tt
  end.

(** The effects of the first render.  The load is started first and waits
    for its answer; [filterTasks] runs meanwhile, over the state of the
    first render, and nothing it does is seen by the request: its work
    comes before the answer of the load. *)
Definition mount : M (World R) unit :=
  filterTasksEffect >> Eff.detached loadTasks.

(** What the user can do on the screen. *)
Inductive Action :=
| ChangeText (q : string)
| PressFilter (f : Filter)
| PullToRefresh
| PressToggle (item : Task)
| PressDelete (item : Task) (answer : option nat)
| PickerChange (date : option Z).

Definition handle (a : Action) : M (World R) unit :=
  match a with
  | ChangeText q => setSearchQuery q
  | PressFilter f => setFilter f
  | PullToRefresh => Eff.detached loadTasks
  | PressToggle item => pressToggle item
  | PressDelete item answer => pressDelete item answer
  | PickerChange date => onPickerChange date
  end.

Fixpoint handleAll (actions : list Action) : M (World R) unit :=
  match actions with
  | [] => Eff.ret tt
  | a :: rest => handle a >> handleAll rest
  end.

(** A session: the screen mounts over the service in state [r], then the
    user acts.  The events are handled one at a time: each handler runs
    to its end, its requests answered and its dialog answered, before the
    next event; a [loadTasks] then reads the filter it closed over, which
    is the current one.  Two handlers in flight at once are outside this
    schedule. *)
Definition session (r : R) (actions : list Action) : Outcome unit * World R :=
  (mount >> handleAll actions) (mkWorld Screen_initial r []).

End Handlers.
Arguments Action : clear implicits.
End Interaction.

Module View.

Record TextStyle := mkStyle {
  color : string;
  fontWeight : option string
}.

Definition getPriorityStyle (priority : Z) : TextStyle :=
  if decide (priority = 1%Z) then {| color := "#F44336"; fontWeight := Some "bold" |}
  else if decide (priority = 2%Z) then {| color := "#FF9800"; fontWeight := None |}
  else if decide (priority = 3%Z) then {| color := "#4CAF50"; fontWeight := None |}
  else {| color := "#9E9E9E"; fontWeight := None |}.

(** The string the screen keeps in its [filter] state. *)
Definition Filter_name (f : Filter) : string :=
  match f with
  | all => "all"
  | today => "today"
  | upcoming => "upcoming"
  | completed => "completed"
  end.

Definition getFilterLabel (filter : string) : string :=
  if decide (filter = "all") then "Все"
  else if decide (filter = "today") then "Сегодня"
  else if decide (filter = "upcoming") then "Предстоящие"
  else if decide (filter = "completed") then "Выполненные"
  else filter.

(** A button of the filter bar: its key, its mode, the filter its press
    sets, its label. *)
Record FilterButton := mkFilterButton {
  fb_key : string;
  fb_mode : string;
  fb_sets : Filter;
  fb_label : string
}.

Definition filterBar (s : Screen) : list FilterButton :=
  map (fun filterName =>
         {| fb_key := Filter_name filterName;
            fb_mode := if decide (filter s = filterName)
                       then "contained" else "outlined";
            fb_sets := filterName;
            fb_label := getFilterLabel (Filter_name filterName) |})
      [all; today; upcoming; completed].

(** [Number.isSafeInteger]: the integers a number holds exactly. *)
Definition isSafeInteger (n : Z) : Prop :=
  (- (2 ^ 53 - 1) <= n <= 2 ^ 53 - 1)%Z.

(** [Number.prototype.toString] on a safe integer: its decimal digits, with
    a minus sign when negative.  Beyond the safe integers a number is a
    rounded double, with an exponent in its text from 1e21 on: that part
    is not modelled, and the result is [None]. *)
Definition Number_toString (n : Z) : option string :=
  if bool_decide (isSafeInteger n)
  then Some (DecimalString.NilZero.string_of_int (Z.to_int n))
  else None.

(** The [keyExtractor] of the list, [item.id.toString()]. *)
Definition keyExtractor (item : Task) : option string :=
  Number_toString (id item).

(** The tabs of [MainTabNavigator], by the [name] of their screens. *)
Definition tabScreens : list string :=
  ["Tasks"; "Calendar"; "Analytics"; "Team"; "Profile"].

(** The [iconName] that [tabBarIcon] computes for a route; [None] when
    the [switch] leaves it [undefined]. *)
Definition tabBarIconName (routeName : string) : option string :=
  if decide (routeName = "Tasks") then Some "check-circle"
  else if decide (routeName = "Calendar") then Some "calendar-today"
  else if decide (routeName = "Analytics") then Some "analytics"
  else if decide (routeName = "Team") then Some "groups"
  else if decide (routeName = "Profile") then Some "person"
  else None.

End View.

(** The displayed list is the search derivation of the local set. *)
Definition synced `{!JS.Host} (s : Screen) : Prop :=
  filteredTasks s = filterTasks (tasks s) (searchQuery s).

(** The filter of the last [getTasks] request of a trace. *)
Definition lastRequestedFilter (l : list Event) : option Filter :=
  List.fold_left
    (fun acc ev => match ev with ReqGetTasks f => Some f | _ => acc end)
    l None.

(** The tasks a trace asks the service to delete, in order. *)
Definition deleteRequests (l : list Event) : list Z :=
  omap (fun ev => match ev with ReqDeleteTask taskId => Some taskId | _ => None end) l.

(** The tasks whose delete dialog the user answers with its second
    button, "Удалить", in order. *)
Definition confirmedDeletes (actions : list Interaction.Action) : list Z :=
  omap (fun a => match a with
                 | Interaction.PressDelete item (Some 1) => Some (id item)
                 | _ => None
                 end) actions.

(** A world from which a load may start: the view is in step with the
    local set and the date picker is closed. *)
Definition calm `{!JS.Host} {R : Type} (w : World R) : Prop :=
  synced (ui w) /\
  showDatePicker (ui w) = false.

(** A world between two events of a mounted screen: calm, the refresh
    indicator off, and the last [getTasks] request was for the active
    filter. *)
Definition settled `{!JS.Host} {R : Type} (w : World R) : Prop :=
  calm w /\
  refreshing (ui w) = false /\
  lastRequestedFilter (trace w) = Some (filter (ui w)).

(** * Properties *)

(** *** Strings: prefixes and occurrences *)

Lemma startsWith_iff s q : JS.startsWith s q = true <-> exists post, s = q +:+ post.
Proof.
  revert s; induction q as [|d q IH]; intros s; simpl.
  - split; [intros _; by exists s | done].
  - destruct s as [|c s]; simpl.
    + split; [done | intros [post H]; discriminate].
    + case_decide as Hcd.
      * subst d. rewrite IH. split; intros [post H]; exists post.
        -- by rewrite H.
        -- by injection H.
      * split; [done | intros [post H]; injection H; congruence].
Qed.

Lemma includes_iff s q :
  JS.includes s q = true <-> exists pre post, s = pre +:+ q +:+ post.
Proof.
  induction s as [|c s IH]; simpl.
  - rewrite orb_false_r, startsWith_iff. split.
    + intros [post H]. by exists "", post.
    + intros (pre & post & H). destruct pre; [by exists post | discriminate].
  - rewrite orb_true_iff, startsWith_iff, IH. split.
    + intros [[post H] | (pre & post & H)].
      * by exists "", post.
      * exists (String c pre), post. simpl. by rewrite H.
    + intros (pre & post & H). destruct pre as [|c' pre]; simpl in H.
      * left. by exists post.
      * right. exists pre, post. by injection H.
Qed.

Lemma matchesQuery_iff `{!JS.Host} q task :
  matchesQuery q task = true <-> selectedBy q task.
Proof.
  unfold matchesQuery, selectedBy, occursIn.
  rewrite orb_true_iff, includes_iff.
  destruct (description task) as [d|].
  - rewrite includes_iff. split; intros [Hq | Hq]; auto.
    + right. by exists d.
    + destruct Hq as (d' & [= <-] & Hq). by right.
  - split; intros [Hq | Hq]; auto; [done | by destruct Hq as (? & ? & _)].
Qed.

#[global] Instance selectedBy_dec `{!JS.Host} q task : Decision (selectedBy q task).
Proof.
  refine (cast_if (decide (matchesQuery q task = true)));
    by rewrite <- matchesQuery_iff.
Defined.

Lemma List_filter_stdpp {A} (f : A -> bool) (P : A -> Prop)
    `{!forall x, Decision (P x)} (l : list A) :
  (forall x, f x = true <-> P x) -> List.filter f l = base.filter P l.
Proof.
  intros Hf. induction l as [|x l IH]; simpl; [done |].
  rewrite filter_cons. destruct (f x) eqn:Hx.
  - rewrite decide_True by by apply Hf. by rewrite IH.
  - rewrite decide_False; [done |]. rewrite <- Hf. congruence.
Qed.

Lemma List_filter_sublist {A} (f : A -> bool) (l : list A) :
  List.filter f l `sublist_of` l.
Proof.
  induction l as [|x l IH]; simpl; [done |].
  destruct (f x); by constructor.
Qed.

(** [filterTasks] by the two branches of its guard. *)
Lemma filterTasks_guard `{!JS.Host} tasks q :
  filterTasks tasks q =
    if decide (q = "") then tasks else List.filter (matchesQuery q) tasks.
Proof. unfold filterTasks. by destruct q. Qed.

Lemma filterTasks_sublist `{!JS.Host} tasks q : filterTasks tasks q `sublist_of` tasks.
Proof.
  rewrite filterTasks_guard. case_decide; [done | apply List_filter_sublist].
Qed.

(** *** The search derivation *)

Lemma filterTasks_selected `{!JS.Host} tasks q :
  filterTasks tasks q =
    if decide (q = "") then tasks else base.filter (selectedBy q) tasks.
Proof.
  rewrite filterTasks_guard. case_decide; [done |].
  apply List_filter_stdpp, matchesQuery_iff.
Qed.

(** The scenario of the specification: both tasks mention Bob, whatever
    the case of the query; nobody mentions Alice. *)
Example search_bob : filterTasks [callBob; emailBob] "bob" = [callBob; emailBob].
Proof. by vm_compute. Qed.

Example search_BOB : filterTasks [callBob; emailBob] "BOB" = [callBob; emailBob].
Proof. by vm_compute. Qed.

Example search_email : filterTasks [callBob; emailBob] "eMail" = [emailBob].
Proof. by vm_compute. Qed.

Example search_alice : filterTasks [callBob; emailBob] "alice" = [].
Proof. by vm_compute. Qed.

Example search_description :
  filterTasks [mkTask 3 "Shopping" (Some "Oat MILK, bread") DueNull None None true;
               buyMilk; callBob] "milk"
  = [mkTask 3 "Shopping" (Some "Oat MILK, bread") DueNull None None true; buyMilk].
Proof. by vm_compute. Qed.

(** Cyrillic letters are lower-cased like the Latin ones. *)
Example search_cyrillic :
  filterTasks [plainTask 1 "Купить молоко" false; callBob] "купить"
  = [plainTask 1 "Купить молоко" false].
Proof. by vm_compute. Qed.

Example lower_kosmos :
  Unicode.toLowerCase "ΚΟΣΜΟΣ" = "κοσμος" /\ Unicode.toLowerCase "ΚΟΣ" = "κος".
Proof. by vm_compute. Qed.



(** C7. Searching the result of a search again with the same query changes
    nothing. *)
Theorem search_idempotent `{!JS.Host} (T : list Task) (q : string) :
  filterTasks (filterTasks T q) q = filterTasks T q.
Proof.
  rewrite !filterTasks_guard. case_decide; [done |].
  induction T as [|t T IH]; simpl; [done |].
  destruct (matchesQuery q t) eqn:Ht; simpl; [| done].
  by rewrite Ht, IH.
Qed.

(** C9. The derived view is a subsequence of the task set: the tasks it
    keeps stand in the order they have in the fetched set, none of them
    moved or repeated. *)
Theorem search_subsequence `{!JS.Host} (T : list Task) (q : string) :
  filterTasks T q `sublist_of` T.
Proof.
  rewrite filterTasks_selected. case_decide; [done | apply sublist_filter].
Qed.

(** *** Loading *)

Section LoadFacts.
Context `{!JS.Host} {R : Type} `{!TaskService.Impl R}.
Import TasksScreen.

Lemma loadTasks_returned (w : World R) fetched r1 :
  TaskService.getTasks (filter (ui w)) (remote w) = (Returned fetched, r1) ->
  loadTasks w =
    (Returned tt,
     mkWorld (loaded fetched (ui w)) r1
             (trace w ++ [ReqGetTasks (filter (ui w))])).
Proof.
  intros Hget. unfold loadTasks, Eff.tryCatchFinally, request, setTasks,
    filterTasksEffect, setFilteredTasks, setRefreshing, setUi, log,
    Eff.bind, Eff.gets, Eff.modify. simpl. by rewrite Hget.
Qed.

Lemma loadTasks_thrown (w : World R) e r1 :
  TaskService.getTasks (filter (ui w)) (remote w) = (Thrown e, r1) ->
  loadTasks w =
    (Returned tt,
     mkWorld (withRefreshing false (ui w)) r1
             (trace w ++ [ReqGetTasks (filter (ui w)); loadFailedAlert])).
Proof.
  intros Hget. unfold loadTasks, Eff.tryCatchFinally, request, notify,
    Alert_alert, setRefreshing, setUi, log, Eff.bind, Eff.gets, Eff.modify,
    Eff.ret. simpl. rewrite Hget. simpl. by rewrite <- app_assoc.
Qed.

(** A load returns on every path: failures end in a notification. *)
Lemma loadTasks_never_throws (w : World R) : fst (loadTasks w) = Returned tt.
Proof.
  destruct (TaskService.getTasks (filter (ui w)) (remote w)) as [[l|e] r1] eqn:Hget.
  - by rewrite (loadTasks_returned _ _ _ Hget).
  - by rewrite (loadTasks_thrown _ _ _ Hget).
Qed.

Lemma loadTasks_clears_flag (w : World R) :
  refreshing (ui (snd (loadTasks w))) = false.
Proof.
  destruct (TaskService.getTasks (filter (ui w)) (remote w)) as [[l|e] r1] eqn:Hget.
  - by rewrite (loadTasks_returned _ _ _ Hget).
  - by rewrite (loadTasks_thrown _ _ _ Hget).
Qed.

End LoadFacts.

(** C2. When the remote [getTasks] of a load fails, the load still returns:
    the local task set, the derived search view and the query it derives
    from are as before, one error notification was raised after the
    request, and the loading flag is off.  The flag is off after every
    load, whichever way it went. *)
Theorem load_failure_keeps_state `{!JS.Host} {R : Type} `{!TaskService.Impl R}
    (w : World R) (e : Error) (r1 : R) :
  TaskService.getTasks (filter (ui w)) (remote w) = (Thrown e, r1) ->
  let w' := snd (TasksScreen.loadTasks w) in
  fst (TasksScreen.loadTasks w) = Returned tt /\
  tasks (ui w') = tasks (ui w) /\
  filteredTasks (ui w') = filteredTasks (ui w) /\
  filterTasks (tasks (ui w')) (searchQuery (ui w')) =
    filterTasks (tasks (ui w)) (searchQuery (ui w)) /\
  trace w' = trace w ++ [ReqGetTasks (filter (ui w));
                         AlertShown "Ошибка" "Не удалось загрузить задачи" []] /\
  refreshing (ui w') = false /\
  (forall w0 : World R, refreshing (ui (snd (TasksScreen.loadTasks w0))) = false).
Proof.
  intros Hget w'. subst w'. rewrite (loadTasks_thrown _ _ _ Hget). simpl.
  repeat split; try done. apply loadTasks_clears_flag.
Qed.

(** A load against a server whose next request fails. *)
Lemma load_failure_keeps_state_witness :
  let w := mkWorld (screenWith [buyMilk] all) (serverWith [buyMilk] [true]) [] in
  tasks (ui (snd (TasksScreen.loadTasks w))) = [buyMilk] /\
  refreshing (ui (snd (TasksScreen.loadTasks w))) = false.
Proof.
  intros w.
  pose proof (load_failure_keeps_state w "Network Error" (serverWith [buyMilk] [])
                eq_refl) as H.
  simpl in H. destruct H as (_ & Ht & _ & _ & _ & Hr & _). split; assumption.
Defined.

(** *** Toggling and deleting *)

Section ActionFacts.
Context `{!JS.Host} {R : Type} `{!TaskService.Impl R}.
Import TasksScreen.

Lemma toggle_returned (w : World R) taskId isCompleted updated r1 :
  TaskService.updateTask taskId (mkPatch (negb isCompleted)) (remote w)
    = (Returned updated, r1) ->
  toggleTaskCompletion taskId isCompleted w =
    (Returned tt,
     snd (loadTasks
            (mkWorld (ui w) r1
               (trace w ++ [ReqUpdateTask taskId (mkPatch (negb isCompleted))])))).
Proof.
  intros Hupd. unfold toggleTaskCompletion, Eff.tryCatch, Eff.tryCatchFinally,
    Eff.detached, request, log, Eff.bind, Eff.modify, Eff.ret.
  simpl. by rewrite Hupd.
Qed.

Lemma toggle_thrown (w : World R) taskId isCompleted e r1 :
  TaskService.updateTask taskId (mkPatch (negb isCompleted)) (remote w)
    = (Thrown e, r1) ->
  toggleTaskCompletion taskId isCompleted w =
    (Returned tt,
     mkWorld (ui w) r1
       (trace w ++ [ReqUpdateTask taskId (mkPatch (negb isCompleted));
                    updateFailedAlert])).
Proof.
  intros Hupd. unfold toggleTaskCompletion, Eff.tryCatch, Eff.tryCatchFinally,
    request, notify, Alert_alert, log, Eff.bind, Eff.modify, Eff.ret.
  simpl. rewrite Hupd. simpl. by rewrite <- app_assoc.
Qed.

(** What a load leaves in the local task set: what was there, or what it
    fetched. *)
Lemma loadTasks_tasks (w : World R) :
  tasks (ui (snd (loadTasks w))) = tasks (ui w) \/
  exists fetched r1,
    TaskService.getTasks (filter (ui w)) (remote w) = (Returned fetched, r1) /\
    tasks (ui (snd (loadTasks w))) = fetched.
Proof.
  destruct (TaskService.getTasks (filter (ui w)) (remote w)) as [[l|e] r1] eqn:Hget.
  - right. exists l, r1. by rewrite (loadTasks_returned _ _ _ Hget).
  - left. by rewrite (loadTasks_thrown _ _ _ Hget).
Qed.

Lemma loadTasks_trace (w : World R) :
  exists rest, trace (snd (loadTasks w)) = trace w ++ ReqGetTasks (filter (ui w)) :: rest.
Proof.
  destruct (TaskService.getTasks (filter (ui w)) (remote w)) as [[l|e] r1] eqn:Hget.
  - exists []. by rewrite (loadTasks_returned _ _ _ Hget).
  - exists [loadFailedAlert]. by rewrite (loadTasks_thrown _ _ _ Hget).
Qed.

End ActionFacts.

(** C3, as the code has it.  [toggleTaskCompletion(taskId, isCompleted)]
    looks nothing up: for every [taskId], in the local task set or not, it
    returns without raising, the first thing it does is the update request
    for [taskId] carrying the negation of the [isCompleted] it was given,
    and the local task set afterwards is the one from before or the one a
    reload fetched: no local task is changed by the handler itself. *)
Theorem toggle_without_lookup `{!JS.Host} {R : Type} `{!TaskService.Impl R}
    (w : World R) (taskId : Z) (isCompleted : bool) :
  let w' := snd (TasksScreen.toggleTaskCompletion taskId isCompleted w) in
  fst (TasksScreen.toggleTaskCompletion taskId isCompleted w) = Returned tt /\
  (exists rest,
     trace w' =
       trace w ++ ReqUpdateTask taskId (mkPatch (negb isCompleted)) :: rest) /\
  (tasks (ui w') = tasks (ui w) \/
   exists fetched r0 r1,
     TaskService.getTasks (filter (ui w)) r0 = (Returned fetched, r1) /\
     tasks (ui w') = fetched).
Proof.
  intros w'. subst w'.
  destruct (TaskService.updateTask taskId (mkPatch (negb isCompleted)) (remote w))
    as [[updated|e] r1] eqn:Hupd.
  - rewrite (toggle_returned _ _ _ _ _ Hupd). simpl.
    set (w1 := mkWorld (ui w) r1 _). split; [done |]. split.
    + destruct (loadTasks_trace w1) as [rest Hrest]. exists (ReqGetTasks (filter (ui w)) :: rest).
      rewrite Hrest. subst w1. simpl. by rewrite <- app_assoc.
    + destruct (loadTasks_tasks w1) as [Hsame | (fetched & r2 & Hget & Hfetched)].
      * by left.
      * right. by exists fetched, r1, r2.
  - rewrite (toggle_thrown _ _ _ _ _ Hupd). simpl. split; [done |]. split.
    + by exists [updateFailedAlert].
    + by left.
Qed.

(** C3, as the specification states it, fails: the local set holds task 1
    only, and a toggle of task 7 raises nothing and sends the update (the
    server knows task 7, so a reload follows). *)
Lemma toggle_absent_id_not_refused :
  let w := mkWorld (screenWith [buyMilk] all)
                   (serverWith [buyMilk; plainTask 7 "Water plants" false] [])
                   [] in
  currentTask 7 (tasks (ui w)) = None /\
  fst (TasksScreen.toggleTaskCompletion 7 false w) = Returned tt /\
  trace (snd (TasksScreen.toggleTaskCompletion 7 false w)) =
    [ReqUpdateTask 7 (mkPatch true); ReqGetTasks all] /\
  ~ (forall (w0 : World Server.t) (taskId : Z) (isCompleted : bool),
       currentTask taskId (tasks (ui w0)) = None ->
       exists e, fst (TasksScreen.toggleTaskCompletion taskId isCompleted w0) = Thrown e).
Proof.
  intros w. repeat split; try reflexivity.
  intros Hclaim. destruct (Hclaim w 7%Z false eq_refl) as [e He]. discriminate He.
Qed.

(** The steps of [deleteTask] for each answer to its dialog. *)
Lemma deleteTask_steps `{!JS.Host} {R : Type} `{!TaskService.Impl R}
    (w : World R) (taskId : Z) :
  (forall answer, answer <> Some 1 ->
     TasksScreen.deleteTask taskId answer w =
       (Returned tt, mkWorld (ui w) (remote w) (trace w ++ [confirmDeleteAlert]))) /\
  match TaskService.deleteTask taskId (remote w) with
  | (Returned _, r1) =>
      TasksScreen.deleteTask taskId (Some 1) w =
        (Returned tt,
         snd (TasksScreen.loadTasks
                (mkWorld (ui w) r1
                   ((trace w ++ [confirmDeleteAlert]) ++ [ReqDeleteTask taskId]))))
  | (Thrown _, r1) =>
      TasksScreen.deleteTask taskId (Some 1) w =
        (Returned tt,
         mkWorld (ui w) r1
           ((trace w ++ [confirmDeleteAlert]) ++
            [ReqDeleteTask taskId; deleteFailedAlert]))
  end.
Proof.
  unfold TasksScreen.deleteTask, TasksScreen.Alert_alert, TasksScreen.log,
    Eff.bind, Eff.modify, Eff.ret. split.
  - intros [[|[|n]]|] Hne; simpl; try reflexivity. done.
  - simpl. unfold Eff.tryCatch, Eff.tryCatchFinally, Eff.detached,
      TasksScreen.request, TasksScreen.notify, TasksScreen.Alert_alert,
      TasksScreen.log, Eff.bind, Eff.modify, Eff.ret. simpl.
    destruct (TaskService.deleteTask taskId (remote w)) as [[[]|e] r1]; simpl.
    + reflexivity.
    + by rewrite <- app_assoc.
Qed.

(** C5. [deleteTask] first asks: the confirmation dialog with its two
    buttons is shown before anything else.  Only the press of the second
    button, "Удалить", sends the delete request; any other answer sends
    nothing and leaves the screen state and the service as they were.
    After a delete that succeeded the screen runs a load; after one that
    failed it raises an error notification and the screen state is as
    before. *)
Theorem delete_after_confirmation `{!JS.Host} {R : Type} `{!TaskService.Impl R}
    (w : World R) (taskId : Z) (answer : option nat) :
  let asked := trace w ++ [confirmDeleteAlert] in
  match answer with
  | Some 1 =>
      match TaskService.deleteTask taskId (remote w) with
      | (Returned _, r1) =>
          TasksScreen.deleteTask taskId answer w =
            (Returned tt,
             snd (TasksScreen.loadTasks
                    (mkWorld (ui w) r1 (asked ++ [ReqDeleteTask taskId]))))
      | (Thrown _, r1) =>
          TasksScreen.deleteTask taskId answer w =
            (Returned tt,
             mkWorld (ui w) r1
               (asked ++ [ReqDeleteTask taskId; deleteFailedAlert]))
      end
  | _ =>
      TasksScreen.deleteTask taskId answer w =
        (Returned tt, mkWorld (ui w) (remote w) asked)
  end.
Proof.
  intros asked. subst asked.
  destruct (deleteTask_steps w taskId) as [Hother Hconfirmed].
  destruct answer as [[|[|n]]|]; try (by apply Hother).
  exact Hconfirmed.
Qed.

(** *** The server *)

Lemma nextFault_keeps sv fault sv1 :
  Server.nextFault sv = (fault, sv1) ->
  Server.store sv1 = Server.store sv /\ Server.selects sv1 = Server.selects sv.
Proof.
  unfold Server.nextFault. destruct (Server.faults sv); intros [= <- <-]; done.
Qed.

Lemma getTasks_returned f sv fetched sv1 :
  Server.getTasks f sv = (Returned fetched, sv1) ->
  fetched = List.filter (Server.selects sv1 f) (Server.store sv1).
Proof.
  unfold Server.getTasks. destruct (Server.nextFault sv) as [[] sv'];
    intros [= <- <-]; done.
Qed.

Lemma updateTask_returned taskId fields sv updated sv1 :
  Server.updateTask taskId fields sv = (Returned updated, sv1) ->
  Server.store sv1 =
    map (fun x => if Server.hasId taskId x then Server.applyPatch fields x else x)
        (Server.store sv).
Proof.
  unfold Server.updateTask.
  destruct (Server.nextFault sv) as [[] sv'] eqn:Hfault; [done |].
  apply nextFault_keeps in Hfault as [Hstore _].
  destruct (List.find _ _); intros [= <- <-]; simpl. by rewrite Hstore.
Qed.

(** In a store that has just taken an update of [taskId], every task of
    that id carries the completion flag of the request. *)
Lemma updated_store_flag taskId fields (l : list Task) (x : Task) :
  x ∈ map (fun x => if Server.hasId taskId x then Server.applyPatch fields x else x) l ->
  id x = taskId ->
  is_completed x = patch_is_completed fields.
Proof.
  intros Hx Hid. apply list_elem_of_fmap in Hx as (y & -> & _).
  destruct (Server.hasId taskId y) eqn:Hy; [done |].
  unfold Server.hasId in Hy. apply Z.eqb_neq in Hy. done.
Qed.

Lemma currentTask_of_unique_id (l : list Task) (item : Task) :
  NoDup (map id l) -> item ∈ l -> currentTask (id item) l = Some item.
Proof.
  unfold currentTask. induction l as [|x l IH]; intros Hnd Hin.
  - by apply not_elem_of_nil in Hin.
  - simpl in *. apply NoDup_cons in Hnd as [Hx Hnd]. unfold Server.hasId at 1.
    apply elem_of_cons in Hin as [-> | Hin].
    + by rewrite Z.eqb_refl.
    + destruct (Z.eqb_spec (id x) (id item)) as [Heq | _]; [| by apply IH].
      exfalso. apply Hx. rewrite Heq. apply list_elem_of_fmap. by exists item.
Qed.

(** C4. Pressing the completion icon of [item], the task the local set
    holds under its id, sends the update request for that id with
    [is_completed] the negation of the task's current value.  When the
    update succeeds the screen runs a load; after a load that succeeded
    the local set is the fetched one, every task of that id in it has the
    negated value, and every task of that id which the active filter
    selects on the server is in it.  When the update fails, the screen
    state is as before and the error notification was raised. *)
Theorem toggle_flips_completion `{!JS.Host} (w : World Server.t) (item : Task) :
  currentTask (id item) (tasks (ui w)) = Some item ->
  let fields := mkPatch (negb (is_completed item)) in
  let sent := trace w ++ [ReqUpdateTask (id item) fields] in
  let w' := snd (TasksScreen.pressToggle item w) in
  match Server.updateTask (id item) fields (remote w) with
  | (Returned _, r1) =>
      TasksScreen.pressToggle item w =
        (Returned tt, snd (TasksScreen.loadTasks (mkWorld (ui w) r1 sent))) /\
      match Server.getTasks (filter (ui w)) r1 with
      | (Returned fetched, r2) =>
          ui w' = loaded fetched (ui w) /\
          trace w' = sent ++ [ReqGetTasks (filter (ui w))] /\
          (forall t, t ∈ tasks (ui w') -> id t = id item ->
                     is_completed t = negb (is_completed item)) /\
          (forall x, x ∈ Server.store r1 -> id x = id item ->
                     Server.selects r1 (filter (ui w)) x = true ->
                     x ∈ tasks (ui w'))
      | (Thrown _, r2) =>
          tasks (ui w') = tasks (ui w) /\
          trace w' = sent ++ [ReqGetTasks (filter (ui w)); loadFailedAlert]
      end
  | (Thrown _, r1) =>
      TasksScreen.pressToggle item w =
        (Returned tt, mkWorld (ui w) r1 (sent ++ [updateFailedAlert]))
  end.
Proof.
  intros _ fields sent w'. subst w'. unfold TasksScreen.pressToggle.
  destruct (Server.updateTask (id item) fields (remote w)) as [[updated|e] r1] eqn:Hupd.
  - rewrite (@toggle_returned _ _ Server.impl w (id item) (is_completed item) updated r1 Hupd).
    split; [done |]. fold fields. fold sent. simpl snd.
    destruct (Server.getTasks (filter (ui w)) r1) as [[fetched|e] r2] eqn:Hget.
    + rewrite (@loadTasks_returned _ _ Server.impl (mkWorld (ui w) r1 sent) fetched r2 Hget). simpl.
      apply getTasks_returned in Hget as Hfetched.
      apply updateTask_returned in Hupd as Hstore.
      assert (Hkeep : Server.store r2 = Server.store r1 /\
                      Server.selects r2 = Server.selects r1).
      { revert Hget. unfold Server.getTasks.
        destruct (Server.nextFault r1) as [[] r1'] eqn:Hf; [done |].
        intros [= _ <-]. by apply nextFault_keeps in Hf. }
      destruct Hkeep as [Hst Hsel]. rewrite Hst, Hsel in Hfetched.
      repeat split; try done.
      * intros t Ht Hid. subst fetched.
        apply list_elem_of_In, List.filter_In in Ht as [Ht _].
        apply list_elem_of_In in Ht. rewrite Hstore in Ht.
        by apply (updated_store_flag _ _ _ _ Ht).
      * intros x Hx Hid Hselx. subst fetched.
        apply list_elem_of_In, List.filter_In. split; [| done].
        by apply list_elem_of_In.
    + rewrite (@loadTasks_thrown _ _ Server.impl (mkWorld (ui w) r1 sent) e r2 Hget). done.
  - rewrite (@toggle_thrown _ _ Server.impl w (id item) (is_completed item) e r1 Hupd).
    subst sent fields. by rewrite <- app_assoc.
Qed.

(** The scenario of the specification: the set holds "Buy milk", not
    completed; toggling it sends [{is_completed: true}], the reload brings
    the task back completed. *)
Lemma toggle_flips_completion_witness :
  let w := mkWorld (screenWith [buyMilk] all) (serverWith [buyMilk] []) [] in
  currentTask 1 (tasks (ui w)) = Some buyMilk /\
  trace (snd (TasksScreen.pressToggle buyMilk w)) =
    [ReqUpdateTask 1 (mkPatch true); ReqGetTasks all] /\
  tasks (ui (snd (TasksScreen.pressToggle buyMilk w))) = [plainTask 1 "Buy milk" true] /\
  (forall t, t ∈ tasks (ui (snd (TasksScreen.pressToggle buyMilk w))) ->
             id t = 1%Z -> is_completed t = true).
Proof.
  intros w. pose proof (toggle_flips_completion w buyMilk eq_refl) as H.
  simpl in H. destruct H as (_ & _ & _ & Hflag & _).
  repeat split; try reflexivity. exact Hflag.
Defined.

(** *** The date line of a card *)

(** C6, at a task without a due date.  [formatDate(undefined)] is the text
    of an invalid date, and so is the date line of every card whose task
    has no [due_date]; a [null] due date is formatted as the epoch.
    Neither is an "unscheduled" state.  The description and the category
    of the same card are left out when absent. *)
Theorem formatDate_of_missing_due_date
    (Date_parse : string -> option Z)
    (Intl_format : string -> Render.DateTimeFormatOptions -> Z -> string)
    (i : Z) (name : string) (done : bool) :
  Render.formatDate Date_parse Intl_format DueUndefined = "Invalid Date" /\
  Render.renderTaskItem Date_parse Intl_format
      (mkTask i name None DueUndefined None None done) =
    Render.mkCard name None "Invalid Date" None /\
  Render.formatDate Date_parse Intl_format DueNull =
    Intl_format "ru-RU"
      (Render.mkOptions (Some "numeric") (Some "short")
                        (Some "2-digit") (Some "2-digit")) 0%Z.
Proof. repeat split. Qed.

(** *** The application shell *)

Section ShellFacts.
Context {A : Type} `{!AuthService.Impl A}.

Lemma bootstrap_returned (w : AppWorld A) token a1 :
  AuthService.getToken (auth w) = (Returned token, a1) ->
  App.bootstrapAsync w =
    (Returned tt,
     mkAppWorld (mkApp false token) a1 (appTrace w ++ [ReqGetToken])).
Proof.
  intros Hget. unfold App.bootstrapAsync, Eff.tryCatchFinally,
    App.AuthService_getToken, App.setUserToken, App.setIsLoading, App.logApp,
    Eff.bind, Eff.modify. simpl. by rewrite Hget.
Qed.

Lemma bootstrap_thrown (w : AppWorld A) e a1 :
  AuthService.getToken (auth w) = (Thrown e, a1) ->
  App.bootstrapAsync w =
    (Returned tt,
     mkAppWorld (mkApp false (userToken (app w))) a1
       (appTrace w ++ [ReqGetToken; ConsoleError "Failed to load token:" e])).
Proof.
  intros Hget. unfold App.bootstrapAsync, Eff.tryCatchFinally,
    App.AuthService_getToken, App.setUserToken, App.setIsLoading, App.logApp,
    Eff.bind, Eff.modify. simpl. rewrite Hget. simpl. by rewrite <- app_assoc.
Qed.

(** The first render of the process throws. *)
Lemma first_render_throws (a : A) :
  App.render (App.start a) = (Thrown "ReferenceError: SplashScreen", App.start a).
Proof. reflexivity. Qed.

Lemma run_throws (a : A) (rerenders : nat) :
  App.run rerenders (App.start a) =
    (Thrown "ReferenceError: SplashScreen", App.start a).
Proof. reflexivity. Qed.

Lemma identifier_bound (scope : list string) (name : string) (w : AppWorld A) :
  name ∈ scope -> App.identifier scope name w = (Returned tt, w).
Proof. intros Hin. unfold App.identifier. by rewrite bool_decide_eq_true_2. Qed.

(** The render of a state that is no longer loading, in a scope that
    binds the components it names. *)
Lemma renderIn_loaded (scope : list string) (w : AppWorld A) :
  isLoading (app w) = false ->
  Forall (fun name => name ∈ scope)
    ["PaperProvider"; "NavigationContainer"; "Stack"; "LoginScreen";
     "MainTabNavigator"] ->
  App.renderIn scope w =
    (Returned (if looseNull (userToken (app w)) then Login else Main), w).
Proof.
  intros Hloaded Hbound.
  apply Forall_cons in Hbound as [Hpaper Hbound].
  apply Forall_cons in Hbound as [Hnav Hbound].
  apply Forall_cons in Hbound as [Hstack Hbound].
  apply Forall_cons in Hbound as [Hlogin Hbound].
  apply Forall_cons in Hbound as [Hmain _].
  unfold App.renderIn, Eff.bind, Eff.gets. rewrite Hloaded.
  rewrite !(identifier_bound _ "PaperProvider") by done.
  rewrite !(identifier_bound _ "NavigationContainer") by done.
  rewrite !(identifier_bound _ "Stack") by done.
  destruct (looseNull (userToken (app w))).
  - rewrite !(identifier_bound _ "Stack") by done.
    by rewrite !(identifier_bound _ "LoginScreen") by done.
  - rewrite !(identifier_bound _ "Stack") by done.
    by rewrite !(identifier_bound _ "MainTabNavigator") by done.
Qed.

Lemma rerenderIn_loaded (scope : list string) (n : nat) (shown : Root)
    (w : AppWorld A) :
  isLoading (app w) = false ->
  Forall (fun name => name ∈ scope)
    ["PaperProvider"; "NavigationContainer"; "Stack"; "LoginScreen";
     "MainTabNavigator"] ->
  App.rerenderIn scope (S n) shown w =
    (Returned (if looseNull (userToken (app w)) then Login else Main), w).
Proof.
  intros Hloaded Hbound. revert shown.
  induction n as [|n IH]; intros shown.
  - simpl. unfold Eff.bind. by rewrite renderIn_loaded.
  - change (App.rerenderIn scope (S (S n)) shown)
      with (Eff.bind (App.renderIn scope)
              (fun shown' => Eff.bind (App.effects false)
                 (fun _ => App.rerenderIn scope (S n) shown'))).
    unfold Eff.bind at 1. rewrite renderIn_loaded by done.
    unfold Eff.bind at 1, App.effects, Eff.ret. apply IH.
Qed.

Lemma render_loaded (w : AppWorld A) :
  isLoading (app w) = false ->
  App.render w =
    (Returned (if looseNull (userToken (app w)) then Login else Main), w).
Proof.
  intros Hloaded. apply renderIn_loaded; [done |].
  apply (bool_decide_unpack _). by vm_compute.
Qed.

(** With [SplashScreen] bound, as with the import in place, the shell
    does what it is written for: one token request, then the root by the
    token. *)
Lemma run_with_splash_bound (a : A) (rerenders : nat) :
  let scope := "SplashScreen" :: moduleScope in
  let result := App.runIn scope (S rerenders) (App.start a) in
  tokenRequests (appTrace (snd result)) = 1 /\
  match AuthService.getToken a with
  | (Returned token, _) =>
      fst result = Returned (if looseNull token then Login else Main)
  | (Thrown _, _) => fst result = Returned Login
  end.
Proof.
  intros scope result. subst result.
  assert (Hbound : Forall (fun name => name ∈ scope)
            ["PaperProvider"; "NavigationContainer"; "Stack"; "LoginScreen";
             "MainTabNavigator"]).
  { apply (bool_decide_unpack _). by vm_compute. }
  assert (Hsplash : App.renderIn scope (App.start a) = (Returned SplashScreen, App.start a)).
  { by vm_compute. }
  assert (Hrun : forall w1, App.bootstrapAsync (App.start a) = (Returned tt, w1) ->
            isLoading (app w1) = false ->
            App.runIn scope (S rerenders) (App.start a) =
              (Returned (if looseNull (userToken (app w1)) then Login else Main), w1)).
  { intros w1 Hboot Hloaded. unfold App.runIn, Eff.bind. rewrite Hsplash.
    unfold App.effects, Eff.detached. rewrite Hboot. simpl snd.
    by apply rerenderIn_loaded. }
  destruct (AuthService.getToken a) as [[token|e] a1] eqn:Hget.
  - by rewrite (Hrun _ (bootstrap_returned (App.start a) token a1 Hget)).
  - by rewrite (Hrun _ (bootstrap_thrown (App.start a) e a1 Hget)).
Qed.

End ShellFacts.

(** C8, on the code as it is.  [App.js] uses [SplashScreen] without
    importing or declaring it, and the state of the first render is
    loading: the first render throws, no effect runs, and from process
    start through any number of renders the auth service is never asked
    for the token and no navigation root is returned. *)
Theorem startup_never_asks_for_token {A : Type} `{!AuthService.Impl A}
    (a : A) (rerenders : nat) :
  isLoading (app (App.start a)) = true /\
  ("SplashScreen" ∉ moduleScope) /\
  App.run rerenders (App.start a) =
    (Thrown "ReferenceError: SplashScreen", App.start a) /\
  tokenRequests (appTrace (snd (App.run rerenders (App.start a)))) = 0.
Proof.
  split; [done |]. split.
  - intros Hin. by apply (bool_decide_pack _) in Hin.
  - by rewrite run_throws.
Qed.

(** C10, on the code as it is.  The bootstrap itself handles a token
    fetch that throws as written: it returns, logs the failure, leaves
    the token [null] and clears the loading flag, and the render of that
    state is the [Login] root.  The process never gets there: its first
    render throws before the bootstrap is started, so the application
    ends with the error, still loading, and shows no [Login] root. *)
Theorem token_failure_never_handled {A : Type} `{!AuthService.Impl A}
    (a a1 : A) (e : Error) (rerenders : nat) :
  AuthService.getToken a = (Thrown e, a1) ->
  let w1 := snd (App.bootstrapAsync (App.start a)) in
  (fst (App.bootstrapAsync (App.start a)) = Returned tt /\
   app w1 = mkApp false TokenNull /\
   appTrace w1 = [ReqGetToken; ConsoleError "Failed to load token:" e] /\
   App.render w1 = (Returned Login, w1)) /\
  App.run rerenders (App.start a) =
    (Thrown "ReferenceError: SplashScreen", App.start a) /\
  isLoading (app (snd (App.run rerenders (App.start a)))) = true.
Proof.
  intros Hget w1. subst w1.
  rewrite (bootstrap_thrown (App.start a) e a1 Hget).
  split; [| by rewrite run_throws].
  split; [done |]. split; [done |]. split; [done |].
  by rewrite render_loaded.
Qed.

(** A start against an auth service whose first answer is an error. *)
Lemma token_failure_never_handled_witness :
  AuthService.getToken [Thrown "keychain locked"] = (Thrown "keychain locked", []) /\
  App.run 3 (App.start [Thrown "keychain locked"]) =
    (Thrown "ReferenceError: SplashScreen", App.start [Thrown "keychain locked"]).
Proof.
  split; [reflexivity |].
  exact (proj1 (proj2 (token_failure_never_handled
                         [Thrown "keychain locked"] [] "keychain locked" 3 eq_refl))).
Defined.

Example render_with_token :
  fst (App.render (mkAppWorld (mkApp false (TokenString "jwt")) tt [])) = Returned Main.
Proof. reflexivity. Qed.

Example render_without_token :
  fst (App.render (mkAppWorld (mkApp false TokenUndefined) tt [])) = Returned Login.
Proof. reflexivity. Qed.

(** *** Deleting on the server *)

Lemma deleteTask_returned taskId sv sv1 :
  Server.deleteTask taskId sv = (Returned tt, sv1) ->
  Server.store sv1 =
    List.filter (fun x => negb (Server.hasId taskId x)) (Server.store sv).
Proof.
  unfold Server.deleteTask.
  destruct (Server.nextFault sv) as [[] sv'] eqn:Hfault; [done |].
  apply nextFault_keeps in Hfault as [Hstore _].
  destruct (List.find _ _); intros [= <-]; simpl. by rewrite Hstore.
Qed.

(** After a delete that succeeded and the reload that follows it, no task
    of that id is in the local set. *)
Lemma delete_then_reload_gone `{!JS.Host} (w : World Server.t) (taskId : Z)
    r1 fetched r2 :
  Server.deleteTask taskId (remote w) = (Returned tt, r1) ->
  Server.getTasks (filter (ui w)) r1 = (Returned fetched, r2) ->
  let w' := snd (TasksScreen.deleteTask taskId (Some 1) w) in
  tasks (ui w') = fetched /\
  forall t, t ∈ tasks (ui w') -> id t <> taskId.
Proof.
  intros Hdel Hget w'. subst w'.
  destruct (@deleteTask_steps _ _ Server.impl w taskId) as [_ Hsteps].
  simpl in Hsteps. rewrite Hdel in Hsteps. rewrite Hsteps. simpl snd.
  rewrite (@loadTasks_returned _ _ Server.impl
             (mkWorld (ui w) r1
                ((trace w ++ [confirmDeleteAlert]) ++ [ReqDeleteTask taskId]))
             fetched r2 Hget). simpl.
  split; [done |]. intros t Ht Hid.
  apply getTasks_returned in Hget as Hfetched.
  assert (Hst : Server.store r2 = Server.store r1).
  { revert Hget. unfold Server.getTasks.
    destruct (Server.nextFault r1) as [[] r1'] eqn:Hf; [done |].
    intros [= _ <-]. by apply nextFault_keeps in Hf as [Hs _]. }
  rewrite Hst, (deleteTask_returned _ _ _ Hdel) in Hfetched. subst fetched.
  apply list_elem_of_In, List.filter_In in Ht as [Ht _].
  apply List.filter_In in Ht as [_ Ht].
  unfold Server.hasId in Ht. apply negb_true_iff, Z.eqb_neq in Ht. done.
Qed.

Example delete_milk :
  let w := mkWorld (screenWith [callBob; emailBob] all)
                   (serverWith [callBob; emailBob] []) [] in
  tasks (ui (snd (TasksScreen.deleteTask 1 (Some 1) w))) = [emailBob] /\
  tasks (ui (snd (TasksScreen.deleteTask 1 (Some 0) w))) = [callBob; emailBob] /\
  trace (snd (TasksScreen.deleteTask 1 (Some 0) w)) = [confirmDeleteAlert].
Proof. repeat split. Qed.

(** * Further properties of the screen and the shell *)

(** *** Searching as the user types *)

Lemma string_app_assoc (a b c : string) : (a +:+ b) +:+ c = a +:+ b +:+ c.
Proof. induction a as [|x a IH]; [done | exact (f_equal (String x) IH)]. Qed.

Lemma occursIn_trans (a b c : string) : occursIn a b -> occursIn b c -> occursIn a c.
Proof.
  intros (pre & post & ->) (pre' & post' & ->).
  exists (pre' +:+ pre), (post +:+ post'). by rewrite !string_app_assoc.
Qed.

Lemma matchesQuery_narrower `{!JS.Host} q q' task :
  occursIn (JS.toLowerCase q) (JS.toLowerCase q') ->
  matchesQuery q' task = true -> matchesQuery q task = true.
Proof.
  intros Hq. rewrite !matchesQuery_iff. intros [Ht | (d & Hd & Hin)].
  - left. by eapply occursIn_trans.
  - right. exists d. split; [done | by eapply occursIn_trans].
Qed.

Lemma List_filter_sublist_impl {A} (f g : A -> bool) (l : list A) :
  (forall x, f x = true -> g x = true) ->
  List.filter f l `sublist_of` List.filter g l.
Proof.
  intros Hfg. induction l as [|x l IH]; simpl; [done |].
  destruct (f x) eqn:Hf.
  - rewrite (Hfg x Hf). by constructor.
  - destruct (g x); [by constructor | done].
Qed.

(** X1. Narrowing: when the new query is not empty and its lower-casing
    contains the lower-casing of the old query, the new result is a
    subsequence of the old one. *)
Theorem search_narrows `{!JS.Host} (T : list Task) (q q' : string) :
  q' <> "" ->
  occursIn (JS.toLowerCase q) (JS.toLowerCase q') ->
  filterTasks T q' `sublist_of` filterTasks T q.
Proof.
  intros Hq' Hin. rewrite !filterTasks_guard. rewrite (decide_False (P := q' = "")) by done.
  case_decide; [apply List_filter_sublist |].
  apply List_filter_sublist_impl. intros task. by apply matchesQuery_narrower.
Qed.

Lemma search_narrows_witness :
  "Bob" <> "" /\
  occursIn (JS.toLowerCase "bo") (JS.toLowerCase "Bob") /\
  filterTasks [callBob; buyMilk; emailBob] "Bob"
    `sublist_of` filterTasks [callBob; buyMilk; emailBob] "bo".
Proof.
  assert (Hne : "Bob" <> "") by done.
  assert (Hin : occursIn (JS.toLowerCase "bo") (JS.toLowerCase "Bob")).
  { exists "", "b". by vm_compute. }
  split; [exact Hne |]. split; [exact Hin |].
  exact (search_narrows [callBob; buyMilk; emailBob] "bo" "Bob" Hne Hin).
Defined.



(** *** What is drawn *)

(** X3. A priority gets the neutral style exactly when it is none of the
    three known ordinals, and the bold face exactly when it is 1; the
    three known ordinals get three different colours. *)
Theorem priority_styles (p : Z) :
  (View.getPriorityStyle p = View.mkStyle "#9E9E9E" None <->
     p <> 1%Z /\ p <> 2%Z /\ p <> 3%Z) /\
  (View.fontWeight (View.getPriorityStyle p) = Some "bold" <-> p = 1%Z) /\
  NoDup (map (fun k => View.color (View.getPriorityStyle k)) [1%Z; 2%Z; 3%Z]).
Proof.
  unfold View.getPriorityStyle. split; [| split].
  - repeat case_decide; subst; split; try done; try lia; intros (? & ? & ?); done.
  - repeat case_decide; subst; split; try done.
  - apply (bool_decide_unpack _). by vm_compute.
Qed.

(** X4. The four buttons of the filter bar carry four different labels,
    and each label is a translation: none falls through to the raw filter
    name. *)
Theorem filter_labels_distinct (s : Screen) :
  NoDup (map View.fb_label (View.filterBar s)) /\
  Forall (fun b => View.fb_label b <> View.fb_key b) (View.filterBar s).
Proof.
  split.
  - apply (bool_decide_unpack _). by vm_compute.
  - unfold View.filterBar. simpl. repeat constructor; by vm_compute.
Qed.

(** X5. In every state exactly one button of the filter bar is drawn
    [contained], and it is the button of the active filter. *)
Theorem one_filter_button_contained (s : Screen) :
  map View.fb_sets
      (List.filter (fun b => bool_decide (View.fb_mode b = "contained"))
                   (View.filterBar s))
  = [filter s].
Proof. unfold View.filterBar. by destruct (filter s). Qed.

Lemma decimal_inj (m n : Z) :
  NilZero.string_of_int (Z.to_int m) = NilZero.string_of_int (Z.to_int n) -> m = n.
Proof.
  intros Hmn.
  assert (Hback : forall z, Z.of_int <$>
            NilZero.int_of_string (NilZero.string_of_int (Z.to_int z)) = Some z).
  { intros z. rewrite NilZero.isi.
    - simpl. by rewrite DecimalZ.of_to.
    - destruct z; simpl; try done. intros [= Hp]. by apply DecimalPos.Unsigned.to_uint_nonnil in Hp.
    - destruct z; simpl; try done. intros [= Hp]. by apply DecimalPos.Unsigned.to_uint_nonnil in Hp. }
  pose proof (Hback m) as Hm. rewrite Hmn, Hback in Hm. by injection Hm.
Qed.

Lemma Number_toString_safe (n : Z) :
  View.isSafeInteger n ->
  View.Number_toString n = Some (NilZero.string_of_int (Z.to_int n)).
Proof. intros Hn. unfold View.Number_toString. by rewrite bool_decide_eq_true_2. Qed.

(** X6. When the ids of the loaded tasks are safe integers and pairwise
    different, every row of the list shown gets a key, and the keys are
    pairwise different, whatever the search query. *)
Theorem row_keys_distinct `{!JS.Host} (T : list Task) (q : string) :
  Forall (fun task => View.isSafeInteger (id task)) T ->
  NoDup (map id T) ->
  Forall is_Some (map View.keyExtractor (filterTasks T q)) /\
  NoDup (map View.keyExtractor (filterTasks T q)).
Proof.
  intros Hsafe Hids.
  pose proof (filterTasks_sublist T q) as Hsub.
  assert (Hshown : forall task, task ∈ filterTasks T q -> View.isSafeInteger (id task)).
  { intros task Hin.
    apply (proj1 (Forall_forall (fun task => View.isSafeInteger (id task)) T) Hsafe).
    by eapply elem_of_sublist. }
  split.
  - apply Forall_fmap, Forall_forall. intros task Hin. unfold View.keyExtractor.
    simpl. rewrite Number_toString_safe by by apply Hshown. by eexists.
  - unfold View.keyExtractor.
    change (map (fun item => View.Number_toString (id item)) (filterTasks T q))
      with ((View.Number_toString ∘ id) <$> filterTasks T q).
    rewrite list_fmap_compose. apply NoDup_fmap_2_strong.
    + intros m n [x [-> Hx]]%list_elem_of_fmap [y [-> Hy]]%list_elem_of_fmap.
      rewrite !Number_toString_safe by by apply Hshown.
      intros [= Heq]. by apply decimal_inj.
    + apply (sublist_NoDup _ (id <$> T)); [exact Hids |].
      by apply (fmap_sublist id).
Qed.

Lemma row_keys_distinct_witness :
  Forall (fun task => View.isSafeInteger (id task)) [callBob; emailBob] /\
  NoDup (map id [callBob; emailBob]) /\
  map View.keyExtractor (filterTasks [callBob; emailBob] "bob") = [Some "1"; Some "2"] /\
  NoDup (map View.keyExtractor (filterTasks [callBob; emailBob] "bob")).
Proof.
  assert (Hsafe : Forall (fun task => View.isSafeInteger (id task)) [callBob; emailBob]).
  { repeat constructor; by vm_compute. }
  assert (Hids : NoDup (map id [callBob; emailBob])).
  { apply (bool_decide_unpack _). by vm_compute. }
  split; [exact Hsafe |]. split; [exact Hids |]. split; [by vm_compute |].
  exact (proj2 (row_keys_distinct [callBob; emailBob] "bob" Hsafe Hids)).
Defined.

(** X7. A route has a tab icon exactly when it is one of the five tabs of
    the navigator, and the five tabs have five different icons. *)
Theorem tab_icons (routeName : string) :
  (is_Some (View.tabBarIconName routeName) <-> routeName ∈ View.tabScreens) /\
  NoDup (map View.tabBarIconName View.tabScreens).
Proof.
  split.
  - unfold View.tabBarIconName, View.tabScreens.
    repeat case_decide; subst; split; intros Hx; try (by eexists);
      try (repeat constructor; fail).
    + by destruct Hx.
    + repeat (apply elem_of_cons in Hx as [-> | Hx]; [done |]).
      by apply not_elem_of_nil in Hx.
  - apply (bool_decide_unpack _). by vm_compute.
Qed.

(** *** Handlers, one by one *)

Section InteractionFacts.
Context `{!JS.Host} {R : Type} `{!TaskService.Impl R}.
Import TasksScreen Interaction.

Lemma setSearchQuery_run (w : World R) (q : string) :
  setSearchQuery q w =
    (Returned tt,
     if decide (searchQuery (ui w) = q) then w
     else mkWorld (mkScreen (tasks (ui w)) (filterTasks (tasks (ui w)) q)
                            (refreshing (ui w)) q (filter (ui w))
                            (showDatePicker (ui w)))
                  (remote w) (trace w)).
Proof.
  unfold setSearchQuery, Eff.bind, Eff.gets. simpl. by case_decide.
Qed.

Lemma setFilter_run (w : World R) (f : Filter) :
  setFilter f w =
    (Returned tt,
     if decide (filter (ui w) = f) then w
     else snd (loadTasks
                 (mkWorld (mkScreen (tasks (ui w)) (filteredTasks (ui w))
                                    (refreshing (ui w)) (searchQuery (ui w))
                                    f (showDatePicker (ui w)))
                          (remote w) (trace w)))).
Proof.
  unfold setFilter, Eff.bind, Eff.gets. simpl. by case_decide.
Qed.

Lemma lastRequestedFilter_app (l s : list Event) :
  lastRequestedFilter (l ++ s) =
    List.fold_left
      (fun acc ev => match ev with ReqGetTasks f => Some f | _ => acc end)
      s (lastRequestedFilter l).
Proof. unfold lastRequestedFilter. apply List.fold_left_app. Qed.

Lemma loadTasks_settles (w : World R) : calm w -> settled (snd (loadTasks w)).
Proof.
  intros (Hsync & Hpicker).
  destruct (TaskService.getTasks (filter (ui w)) (remote w)) as [[l|e] r1] eqn:Hget.
  - rewrite (loadTasks_returned _ _ _ Hget). repeat split; simpl; try done.
    by rewrite lastRequestedFilter_app.
  - rewrite (loadTasks_thrown _ _ _ Hget). repeat split; simpl; try done.
    by rewrite lastRequestedFilter_app.
Qed.

Lemma loadTasks_deletes (w : World R) :
  deleteRequests (trace (snd (loadTasks w))) = deleteRequests (trace w).
Proof.
  unfold deleteRequests.
  destruct (TaskService.getTasks (filter (ui w)) (remote w)) as [[l|e] r1] eqn:Hget.
  - rewrite (loadTasks_returned _ _ _ Hget). simpl.
    rewrite omap_app. simpl. by rewrite app_nil_r.
  - rewrite (loadTasks_thrown _ _ _ Hget). simpl.
    rewrite omap_app. simpl. by rewrite app_nil_r.
Qed.

Lemma handle_settled (a : Action) (w : World R) :
  settled w ->
  fst (handle a w) = Returned tt /\ settled (snd (handle a w)).
Proof.
  intros Hw. pose proof Hw as ((Hsync & Hpicker) & Hrefresh & Hlast).
  destruct a as [q | f | | item | item answer | date]; simpl.
  - rewrite setSearchQuery_run. split; [done |]. simpl. case_decide; [done |].
    repeat split; done.
  - rewrite setFilter_run. split; [done |]. simpl. case_decide; [done |].
    apply loadTasks_settles. repeat split; done.
  - split; [done |]. apply loadTasks_settles. repeat split; done.
  - unfold pressToggle.
    destruct (TaskService.updateTask (id item)
                (mkPatch (negb (is_completed item))) (remote w))
      as [[updated|e] r1] eqn:Hupd.
    + rewrite (toggle_returned _ _ _ _ _ Hupd). split; [done |]. simpl.
      apply loadTasks_settles. repeat split; simpl; done.
    + rewrite (toggle_thrown _ _ _ _ _ Hupd). split; [done |].
      repeat split; simpl; try done.
      by rewrite lastRequestedFilter_app.
  - unfold pressDelete.
    destruct (deleteTask_steps w (id item)) as [Hother Hconfirmed].
    destruct (decide (answer = Some 1)) as [-> | Hanswer].
    + destruct (TaskService.deleteTask (id item) (remote w)) as [[[]|e] r1].
      * rewrite Hconfirmed. split; [done |]. simpl.
        apply loadTasks_settles. repeat split; simpl; done.
      * rewrite Hconfirmed. split; [done |].
        repeat split; simpl; try done.
        by rewrite !lastRequestedFilter_app.
    + rewrite (Hother answer Hanswer). split; [done |].
      repeat split; simpl; try done.
      by rewrite lastRequestedFilter_app.
  - destruct date; (split; [done |]; repeat split; done).
Qed.

(** What one event adds to the delete requests of the trace. *)
Lemma handle_deletes (a : Action) (w : World R) :
  deleteRequests (trace (snd (handle a w))) =
  deleteRequests (trace w) ++ confirmedDeletes [a].
Proof.
  destruct a as [q | f | | item | item answer | date]; simpl.
  - rewrite setSearchQuery_run. simpl. rewrite app_nil_r. by case_decide.
  - rewrite setFilter_run. simpl. rewrite app_nil_r. case_decide; [done |].
    by rewrite loadTasks_deletes.
  - by rewrite loadTasks_deletes, app_nil_r.
  - unfold pressToggle. rewrite app_nil_r.
    destruct (TaskService.updateTask (id item)
                (mkPatch (negb (is_completed item))) (remote w))
      as [[updated|e] r1] eqn:Hupd.
    + rewrite (toggle_returned _ _ _ _ _ Hupd). simpl.
      rewrite loadTasks_deletes. simpl. unfold deleteRequests.
      rewrite omap_app. simpl. by rewrite app_nil_r.
    + rewrite (toggle_thrown _ _ _ _ _ Hupd). simpl. unfold deleteRequests.
      rewrite omap_app. simpl. by rewrite app_nil_r.
  - unfold pressDelete.
    destruct (deleteTask_steps w (id item)) as [Hother Hconfirmed].
    destruct (decide (answer = Some 1)) as [-> | Hanswer].
    + destruct (TaskService.deleteTask (id item) (remote w)) as [[[]|e] r1];
        rewrite Hconfirmed; simpl.
      * rewrite loadTasks_deletes. simpl. unfold deleteRequests.
        by rewrite !omap_app, <- app_assoc.
      * unfold deleteRequests. by rewrite !omap_app, <- app_assoc.
    + rewrite (Hother answer Hanswer). simpl. unfold deleteRequests.
      rewrite omap_app. simpl.
      by destruct answer as [[|[|n]]|].
  - destruct date; simpl; by rewrite app_nil_r.
Qed.

Lemma handleAll_settled (actions : list Action) (w : World R) :
  settled w ->
  fst (handleAll actions w) = Returned tt /\ settled (snd (handleAll actions w)).
Proof.
  revert w. induction actions as [|a rest IH]; intros w Hw; [done |].
  destruct (handle_settled a w Hw) as [Hret Hnext].
  simpl. unfold Eff.bind. destruct (handle a w) as [[[]|e] w1]; [| done].
  by apply IH.
Qed.

Lemma mount_settled (r : R) :
  fst (mount (mkWorld Screen_initial r [])) = Returned tt /\
  settled (snd (mount (mkWorld Screen_initial r []))).
Proof.
  unfold mount, Eff.bind, Eff.detached.
  change (filterTasksEffect (mkWorld Screen_initial r []))
    with (@Returned unit tt, mkWorld Screen_initial r []).
  cbv beta iota.
  split; [done |]. apply loadTasks_settles. repeat split; done.
Qed.

Lemma session_settled (r : R) (actions : list Action) :
  fst (session r actions) = Returned tt /\ settled (snd (session r actions)).
Proof.
  destruct (mount_settled r) as [Hret Hmounted].
  unfold session, Eff.bind.
  destruct (mount (mkWorld Screen_initial r [])) as [[[]|e] w1]; [| done].
  by apply handleAll_settled.
Qed.

End InteractionFacts.

Lemma session_deletes `{!JS.Host} {R : Type} `{!TaskService.Impl R}
    (r : R) (actions : list Interaction.Action) :
  deleteRequests (trace (snd (Interaction.session r actions))) =
  confirmedDeletes actions.
Proof.
  assert (Hall : forall acts (w : World R), settled w ->
            deleteRequests (trace (snd (Interaction.handleAll acts w))) =
            deleteRequests (trace w) ++ confirmedDeletes acts).
  { induction acts as [|a rest IH]; intros w Hw.
    - simpl. by rewrite app_nil_r.
    - destruct (handle_settled a w Hw) as [Hret Hnext].
      pose proof (handle_deletes a w) as Hstep.
      simpl Interaction.handleAll. unfold Eff.bind.
      destruct (Interaction.handle a w) as [[[]|e] w1]; [| done].
      rewrite (IH w1 Hnext). simpl in Hstep. rewrite Hstep.
      change (confirmedDeletes (a :: rest))
        with (confirmedDeletes ([a] ++ rest)).
      unfold confirmedDeletes. by rewrite omap_app, app_assoc. }
  destruct (mount_settled r) as [Hret Hmounted].
  assert (Hmount : deleteRequests
            (trace (snd (Interaction.mount (mkWorld Screen_initial r [])))) = []).
  { unfold Interaction.mount, Eff.bind, Eff.detached.
    change (TasksScreen.filterTasksEffect (mkWorld Screen_initial r []))
      with (@Returned unit tt, mkWorld Screen_initial r []).
    cbv beta iota. simpl snd. by rewrite loadTasks_deletes. }
  unfold Interaction.session, Eff.bind.
  destruct (Interaction.mount (mkWorld Screen_initial r [])) as [[[]|e] w1]; [| done].
  rewrite (Hall actions w1 Hmounted). simpl in Hmount. by rewrite Hmount.
Qed.

(** *** The screen, event by event *)

(** X8. Mounting the screen sends one request, for the filter [all].
    When it is answered the local set and the list shown are both the
    fetched tasks; when it fails both stay empty and the error
    notification was raised.  Either way the refresh indicator is off. *)
Theorem first_load `{!JS.Host} {R : Type} `{!TaskService.Impl R} (r : R) :
  match TaskService.getTasks all r with
  | (Returned fetched, r1) =>
      Interaction.session r [] =
        (Returned tt,
         mkWorld (mkScreen fetched fetched false "" all false) r1
                 [ReqGetTasks all])
  | (Thrown _, r1) =>
      Interaction.session r [] =
        (Returned tt,
         mkWorld Screen_initial r1 [ReqGetTasks all; loadFailedAlert])
  end.
Proof.
  unfold Interaction.session, Interaction.mount, Interaction.handleAll,
    Eff.bind, Eff.detached, Eff.ret.
  change (TasksScreen.filterTasksEffect (mkWorld Screen_initial r []))
    with (@Returned unit tt, mkWorld Screen_initial r []).
  cbv beta iota.
  destruct (TaskService.getTasks all r) as [[fetched|e] r1] eqn:Hget.
  - by rewrite (loadTasks_returned (mkWorld Screen_initial r []) fetched r1 Hget).
  - by rewrite (loadTasks_thrown (mkWorld Screen_initial r []) e r1 Hget).
Qed.

(** X9. Typing in the search bar is local: it returns, sends nothing to
    the service and leaves the local task set alone; the query becomes
    the text, and when the text differs from the query before, the list
    shown becomes the search derivation for it. *)
Theorem typing_only_filters `{!JS.Host} {R : Type} `{!TaskService.Impl R}
    (w : World R) (q : string) :
  let w' := snd (Interaction.setSearchQuery q w) in
  fst (Interaction.setSearchQuery q w) = Returned tt /\
  remote w' = remote w /\
  trace w' = trace w /\
  tasks (ui w') = tasks (ui w) /\
  searchQuery (ui w') = q /\
  filteredTasks (ui w') =
    (if decide (searchQuery (ui w) = q) then filteredTasks (ui w)
     else filterTasks (tasks (ui w)) q).
Proof.
  intros w'. subst w'. rewrite setSearchQuery_run. simpl.
  case_decide; repeat split; done.
Qed.

(** X10. Pressing the button of the active filter does nothing.  Pressing
    another one switches the filter and sends [getTasks] for it: when the
    request is answered, the local set is the fetched one and the list
    shown its search derivation; when it fails, the filter has switched
    all the same, while the local set and the list shown are still those
    of the filter before, and the error notification was raised. *)
Theorem filter_press_reloads `{!JS.Host} {R : Type} `{!TaskService.Impl R}
    (w : World R) (f : Filter) :
  if decide (filter (ui w) = f)
  then Interaction.setFilter f w = (Returned tt, w)
  else
    match TaskService.getTasks f (remote w) with
    | (Returned fetched, r1) =>
        Interaction.setFilter f w =
          (Returned tt,
           mkWorld (mkScreen fetched (filterTasks fetched (searchQuery (ui w)))
                             false (searchQuery (ui w)) f
                             (showDatePicker (ui w)))
                   r1 (trace w ++ [ReqGetTasks f]))
    | (Thrown _, r1) =>
        Interaction.setFilter f w =
          (Returned tt,
           mkWorld (mkScreen (tasks (ui w)) (filteredTasks (ui w)) false
                             (searchQuery (ui w)) f (showDatePicker (ui w)))
                   r1 (trace w ++ [ReqGetTasks f; loadFailedAlert]))
    end.
Proof.
  rewrite setFilter_run. case_decide; [done |].
  set (w1 := mkWorld _ (remote w) (trace w)).
  destruct (TaskService.getTasks f (remote w)) as [[fetched|e] r1] eqn:Hget.
  - by rewrite (loadTasks_returned w1 fetched r1 Hget).
  - by rewrite (loadTasks_thrown w1 e r1 Hget).
Qed.

(** *** The screen over a whole session *)

(** X11. After every event of a session the list shown is the search
    derivation of the local task set for the query in the search bar. *)
Theorem view_always_in_step `{!JS.Host} {R : Type} `{!TaskService.Impl R}
    (r : R) (actions : list Interaction.Action) :
  let s := ui (snd (Interaction.session r actions)) in
  filteredTasks s = filterTasks (tasks s) (searchQuery s).
Proof. by destruct (session_settled r actions) as (_ & (Hsync & _) & _). Qed.

(** X12. None of the screen's asynchronous functions rejects: whatever the
    service answers, a load, a toggle and a delete, with any answer to its
    dialog, all return.  A failure of the service ends in a notification:
    what the handler adds to the trace is its request and then its own
    error alert. *)
Theorem handlers_never_reject `{!JS.Host} {R : Type} `{!TaskService.Impl R}
    (w : World R) :
  (fst (TasksScreen.loadTasks w) = Returned tt /\
   match TaskService.getTasks (filter (ui w)) (remote w) with
   | (Thrown _, _) =>
       trace (snd (TasksScreen.loadTasks w)) =
         trace w ++ [ReqGetTasks (filter (ui w)); loadFailedAlert]
   | (Returned _, _) => True
   end) /\
  (forall taskId isCompleted,
     fst (TasksScreen.toggleTaskCompletion taskId isCompleted w) = Returned tt /\
     match TaskService.updateTask taskId (mkPatch (negb isCompleted)) (remote w) with
     | (Thrown _, _) =>
         trace (snd (TasksScreen.toggleTaskCompletion taskId isCompleted w)) =
           trace w ++ [ReqUpdateTask taskId (mkPatch (negb isCompleted));
                       updateFailedAlert]
     | (Returned _, _) => True
     end) /\
  (forall taskId,
     (forall answer, fst (TasksScreen.deleteTask taskId answer w) = Returned tt) /\
     match TaskService.deleteTask taskId (remote w) with
     | (Thrown _, _) =>
         trace (snd (TasksScreen.deleteTask taskId (Some 1) w)) =
           trace w ++ [confirmDeleteAlert; ReqDeleteTask taskId; deleteFailedAlert]
     | (Returned _, _) => True
     end).
Proof.
  split; [| split].
  - split; [apply loadTasks_never_throws |].
    destruct (TaskService.getTasks (filter (ui w)) (remote w)) as [[l|e] r1] eqn:Hget;
      [done |]. by rewrite (loadTasks_thrown _ _ _ Hget).
  - intros taskId isCompleted.
    destruct (TaskService.updateTask taskId (mkPatch (negb isCompleted)) (remote w))
      as [[updated|e] r1] eqn:Hupd.
    + by rewrite (toggle_returned _ _ _ _ _ Hupd).
    + by rewrite (toggle_thrown _ _ _ _ _ Hupd).
  - intros taskId.
    destruct (deleteTask_steps w taskId) as [Hother Hconfirmed]. split.
    + intros answer. destruct (decide (answer = Some 1)) as [-> | Hanswer].
      * destruct (TaskService.deleteTask taskId (remote w)) as [[[]|e] r1];
          by rewrite Hconfirmed.
      * by rewrite (Hother answer Hanswer).
    + destruct (TaskService.deleteTask taskId (remote w)) as [[[]|e] r1]; [done |].
      rewrite Hconfirmed. simpl. by rewrite <- app_assoc.
Qed.

(** X13. The refresh indicator never sticks: after every event of a
    session it is off. *)
Theorem refresh_indicator_rests `{!JS.Host} {R : Type} `{!TaskService.Impl R}
    (r : R) (actions : list Interaction.Action) :
  refreshing (ui (snd (Interaction.session r actions))) = false.
Proof. by destruct (session_settled r actions) as (_ & _ & Hrefresh & _). Qed.

(** X14. The date picker never opens: no event of a session turns
    [showDatePicker] on. *)
Theorem date_picker_never_opens `{!JS.Host} {R : Type} `{!TaskService.Impl R}
    (r : R) (actions : list Interaction.Action) :
  showDatePicker (ui (snd (Interaction.session r actions))) = false.
Proof. by destruct (session_settled r actions) as (_ & (_ & Hpicker) & _). Qed.

(** X15. The delete requests of a session are the confirmed deletes: the
    tasks the screen asks the service to delete are, one for one and in
    order, the tasks whose delete dialog was answered with "Удалить".  A
    dialog cancelled or dismissed, and every other event, sends none. *)
Theorem deletes_are_the_confirmed_ones `{!JS.Host} {R : Type}
    `{!TaskService.Impl R} (r : R) (actions : list Interaction.Action) :
  deleteRequests (trace (snd (Interaction.session r actions))) =
  confirmedDeletes actions.
Proof. apply session_deletes. Qed.

(** X16. With the events handled one at a time, each to its end before the
    next, the last [getTasks] request sent after every event was for the
    filter that is now active. *)
Theorem last_request_matches_filter `{!JS.Host} {R : Type} `{!TaskService.Impl R}
    (r : R) (actions : list Interaction.Action) :
  lastRequestedFilter (trace (snd (Interaction.session r actions))) =
  Some (filter (ui (snd (Interaction.session r actions)))).
Proof. by destruct (session_settled r actions) as (_ & _ & _ & Hlast). Qed.

Example session_deletes_sample :
  let r := serverWith [callBob; emailBob; plainTask 3 "Buy milk" true] [] in
  let actions := [Interaction.PressDelete callBob (Some 0);
                  Interaction.PressDelete emailBob (Some 1);
                  Interaction.PressToggle callBob;
                  Interaction.PressDelete callBob None;
                  Interaction.PressDelete (plainTask 3 "Buy milk" true) (Some 1)] in
  confirmedDeletes actions = [2%Z; 3%Z] /\
  map id (tasks (ui (snd (Interaction.session r actions)))) = [1%Z].
Proof. by vm_compute. Qed.

Example session_sample :
  let r := serverWith [callBob; emailBob; plainTask 3 "Buy milk" true] [false; true] in
  let w := snd (Interaction.session r
                  [Interaction.ChangeText "BOB";
                   Interaction.PressFilter completed;
                   Interaction.PressFilter all]) in
  map id (tasks (ui w)) = [1%Z; 2%Z; 3%Z] /\
  map id (filteredTasks (ui w)) = [1%Z; 2%Z] /\
  trace w = [ReqGetTasks all; ReqGetTasks completed; loadFailedAlert;
             ReqGetTasks all].
Proof. repeat split. Qed.

(** *** Loads that succeed, reloads that fail *)

(** X17. A load that is answered replaces the local task set by the
    fetched one and derives the list shown from it anew, whatever the
    list showed before; it raises no notification and leaves the
    indicator off. *)
Theorem load_success_replaces `{!JS.Host} {R : Type} `{!TaskService.Impl R}
    (w : World R) (fetched : list Task) (r1 : R) :
  TaskService.getTasks (filter (ui w)) (remote w) = (Returned fetched, r1) ->
  let w' := snd (TasksScreen.loadTasks w) in
  tasks (ui w') = fetched /\
  filteredTasks (ui w') = filterTasks fetched (searchQuery (ui w)) /\
  searchQuery (ui w') = searchQuery (ui w) /\
  filter (ui w') = filter (ui w) /\
  refreshing (ui w') = false /\
  trace w' = trace w ++ [ReqGetTasks (filter (ui w))].
Proof.
  intros Hget w'. subst w'. by rewrite (loadTasks_returned _ _ _ Hget).
Qed.

(** A stale list, showing a task the server no longer has, is put right
    by a load. *)
Lemma load_success_replaces_witness :
  let w := mkWorld (mkScreen [buyMilk] [buyMilk; callBob] true "bob" all false)
                   (serverWith [callBob; emailBob; buyMilk] []) [] in
  tasks (ui (snd (TasksScreen.loadTasks w))) = [callBob; emailBob; buyMilk] /\
  filteredTasks (ui (snd (TasksScreen.loadTasks w))) = [callBob; emailBob].
Proof.
  intros w.
  pose proof (@load_success_replaces _ _ Server.impl w [callBob; emailBob; buyMilk]
                (serverWith [callBob; emailBob; buyMilk] []) eq_refl) as H.
  simpl in H. destruct H as (Ht & Hf & _). split; [exact Ht | exact Hf].
Defined.

(** X18. When the update of a toggle succeeds and the reload after it
    fails, the screen keeps the local set and the list from before the
    press, so the task still shows its old completion state, and the
    notification raised is the one of the load. *)
Theorem toggle_reload_failure_is_stale `{!JS.Host} {R : Type} `{!TaskService.Impl R}
    (w : World R) (item updated : Task) (e : Error) (r1 r2 : R) :
  TaskService.updateTask (id item) (mkPatch (negb (is_completed item))) (remote w)
    = (Returned updated, r1) ->
  TaskService.getTasks (filter (ui w)) r1 = (Thrown e, r2) ->
  TasksScreen.pressToggle item w =
    (Returned tt,
     mkWorld (withRefreshing false (ui w)) r2
       (trace w ++ [ReqUpdateTask (id item) (mkPatch (negb (is_completed item)));
                    ReqGetTasks (filter (ui w)); loadFailedAlert])).
Proof.
  intros Hupd Hget. unfold TasksScreen.pressToggle.
  rewrite (toggle_returned _ _ _ _ _ Hupd).
  set (w1 := mkWorld (ui w) r1 _).
  rewrite (loadTasks_thrown w1 e r2 Hget). subst w1. simpl.
  by rewrite <- app_assoc.
Qed.

Lemma toggle_reload_failure_is_stale_witness :
  let w := mkWorld (screenWith [buyMilk] all) (serverWith [buyMilk] [false; true]) [] in
  Server.store (remote (snd (TasksScreen.pressToggle buyMilk w))) =
    [plainTask 1 "Buy milk" true] /\
  tasks (ui (snd (TasksScreen.pressToggle buyMilk w))) = [buyMilk].
Proof.
  intros w.
  pose proof (@toggle_reload_failure_is_stale _ _ Server.impl w buyMilk
                (plainTask 1 "Buy milk" true) "Network Error"
                (serverWith [plainTask 1 "Buy milk" true] [true])
                (serverWith [plainTask 1 "Buy milk" true] [])
                eq_refl eq_refl) as H.
  rewrite H. split; reflexivity.
Defined.

(** X19. Likewise for a delete: when the confirmed delete succeeds and the
    reload after it fails, the local set and the list shown are those
    from before, the deleted task included, and the notification raised
    is the one of the load. *)
Theorem delete_reload_failure_is_stale `{!JS.Host} {R : Type} `{!TaskService.Impl R}
    (w : World R) (item : Task) (e : Error) (r1 r2 : R) :
  TaskService.deleteTask (id item) (remote w) = (Returned tt, r1) ->
  TaskService.getTasks (filter (ui w)) r1 = (Thrown e, r2) ->
  TasksScreen.pressDelete item (Some 1) w =
    (Returned tt,
     mkWorld (withRefreshing false (ui w)) r2
       (trace w ++ [confirmDeleteAlert; ReqDeleteTask (id item);
                    ReqGetTasks (filter (ui w)); loadFailedAlert])).
Proof.
  intros Hdel Hget. unfold TasksScreen.pressDelete.
  destruct (deleteTask_steps w (id item)) as [_ Hconfirmed].
  rewrite Hdel in Hconfirmed. rewrite Hconfirmed.
  set (w1 := mkWorld (ui w) r1 _).
  rewrite (loadTasks_thrown w1 e r2 Hget). subst w1. simpl.
  by rewrite <- !app_assoc.
Qed.

Lemma delete_reload_failure_is_stale_witness :
  let w := mkWorld (screenWith [buyMilk] all) (serverWith [buyMilk] [false; true]) [] in
  Server.store (remote (snd (TasksScreen.pressDelete buyMilk (Some 1) w))) = [] /\
  filteredTasks (ui (snd (TasksScreen.pressDelete buyMilk (Some 1) w))) = [buyMilk].
Proof.
  intros w.
  pose proof (@delete_reload_failure_is_stale _ _ Server.impl w buyMilk
                "Network Error" (serverWith [] [true]) (serverWith [] [])
                eq_refl eq_refl) as H.
  rewrite H. split; reflexivity.
Defined.

(** X20. The search comes back empty, and the list shows its "nothing
    found" placeholder, exactly when, for the empty query, the set is
    empty, and for any other query, no task of the set has a lower-cased
    title, or a lower-cased description, in which the lower-cased query
    occurs. *)
Theorem nothing_found_iff `{!JS.Host} (T : list Task) (q : string) :
  filterTasks T q = [] <->
  if decide (q = "") then T = []
  else Forall (fun task => ~ selectedBy q task) T.
Proof.
  rewrite filterTasks_selected. case_decide; [done |].
  induction T as [|task T IH]; [done |].
  rewrite filter_cons, Forall_cons. case_decide as Hsel.
  - split; [done | by intros [Hno _]].
  - rewrite IH. split; [done | by intros [_ Hrest]].
Qed.
